(** * RoadPay webhook subsystem: a shallow embedding and its properties

    The development embeds the two webhook pipelines of the repository:

    - [Webhooks]: [src/roadpay/webhooks.py], the in-memory [WebhookProcessor]
      with its retry loop, event log and dead-letter list;
    - [Events]: [src/roadpay/events.py], the storage-backed [EventRouter]
      with its domain handlers (the dispute handler is embedded in full).

    Python objects that are mutated through several references (the
    [WebhookEvent] held by both [event_log] and [failed_events]) live in an
    explicit object store and are referred to by index.  Exceptions are an
    explicit [Outcome]; everything a handler or a collaborator can touch is
    threaded through as state. *)

From Stdlib Require Import ZArith Lia.
From stdpp Require Import gmap strings list pretty.

Local Open Scope Z_scope.
Set Warnings "-register-all".
Set Default Proof Using "Type*".

(** ** Python exceptions and results *)

(** The exception classes the two modules raise or catch.  [Exception] stands
    for any other subclass of Python's [Exception]; its argument is what
    [str(e)] returns. *)
Inductive Exn :=
| ValueError (msg : string)
| SignatureVerificationError (msg : string)
| KeyError (key : string)
| TypeError (msg : string)
| AttributeError (msg : string)
| HTTPException (status_code : Z) (detail : string)
| Exception (msg : string).

(** [str(e)] *)
Definition str (e : Exn) : string :=
  match e with
  | ValueError msg => msg
  | SignatureVerificationError msg => msg
  | KeyError key => "'" +:+ key +:+ "'"
  | TypeError msg => msg
  | AttributeError msg => msg
  | HTTPException status_code detail => pretty status_code +:+ ": " +:+ detail
  | Exception msg => msg
  end.

Inductive Outcome (A : Type) :=
| Return (a : A)
| Raise (e : Exn).
Arguments Return {A} a.
Arguments Raise {A} e.

#[global] Instance Outcome_ret : MRet Outcome := fun A a => Return a.

#[global] Instance Outcome_bind : MBind Outcome := fun A B k o =>
  match o with
  | Return a => k a
  | Raise e => Raise e
  end.

(** ** JSON values, as [json.loads] produces them (floats are left out) *)
Inductive Json :=
| JNull
| JBool (b : bool)
| JInt (n : Z)
| JStr (s : string)
| JList (items : list Json)
| JDict (fields : list (string * Json)).

(** Python truthiness of a JSON value *)
Definition truthy (j : Json) : bool :=
  match j with
  | JNull => false
  | JBool b => b
  | JInt n => negb (n =? 0)
  | JStr s => negb (String.eqb s "")
  | JList items => match items with [] => false | _ => true end
  | JDict fields => match fields with [] => false | _ => true end
  end.

Fixpoint assoc (key : string) (fields : list (string * Json)) : option Json :=
  match fields with
  | [] => None
  | (k, v) :: rest => if String.eqb k key then Some v else assoc key rest
  end.

(** [obj[key]] *)
Definition subscript (obj : Json) (key : string) : Outcome Json :=
  match obj with
  | JDict fields =>
      match assoc key fields with
      | Some v => Return v
      | None => Raise (KeyError key)
      end
  | _ => Raise (TypeError "object is not subscriptable")
  end.

(** The dataclass annotates [id: str], [type: str] and [created: int], and
    the provider sends them so.  The embedding keeps event ids as strings
    and covers those deliveries only: a payload that carries another JSON
    type there, which the code would take as it is, has no event in the
    embedding.  Every statement on what [process] does with an event takes a
    request that [delivers] one. *)
Definition as_str (j : Json) : Outcome string :=
  match j with
  | JStr s => Return s
  | _ => Raise (TypeError "expected str")
  end.

Definition as_int (j : Json) : Outcome Z :=
  match j with
  | JInt n => Return n
  | _ => Raise (TypeError "expected int")
  end.

(** [range(n)] *)
Definition range (n : Z) : list Z := Z.of_nat <$> seq 0 (Z.to_nat n).

(** ** The payment provider's SDK

    The objects of the [stripe] package that the code reads.  Attribute
    access on them is typed: a dispute always has its documented fields. *)
Module stripe.

Record EvidenceDetails := { due_by : Z }.

Record Dispute := {
  dispute_id : string;
  charge : string;
  amount : Z;
  reason : string;
  dispute_status : string;
  evidence_details : option EvidenceDetails
}.

(** [event.data.object]: a dispute, or any other resource snapshot *)
Inductive StripeObject :=
| DisputeObject (d : Dispute)
| OtherObject (j : Json).

(** [stripe.Event] *)
Record Event := {
  id : string;
  type : string;
  object : StripeObject;
  previous_attributes : option Json
}.

End stripe.

(** [stripe.Webhook.construct_event(payload, signature, secret)] and
    [json.loads] are library code; the embedding takes them as an interface.
    [construct_event] either returns the verified event or raises
    [ValueError] (malformed payload) or [SignatureVerificationError]. *)
Class StripeLib := {
  construct_event : string -> string -> string -> Outcome stripe.Event;
  json_loads : string -> option Json
}.

(** What handlers of the [WebhookProcessor] act on: an arbitrary world, of
    which the processor itself only reads the clock and lets time pass. *)
Class Runtime (World : Type) := {
  time_time : World -> Z;
  asyncio_sleep : Z -> World -> World
}.

Module Webhooks.

(** *** [class WebhookEventType(str, Enum)] *)
Inductive WebhookEventType :=
| PAYMENT_INTENT_SUCCEEDED | PAYMENT_INTENT_FAILED | PAYMENT_INTENT_CANCELED
| CHARGE_SUCCEEDED | CHARGE_FAILED | CHARGE_REFUNDED | CHARGE_DISPUTED
| SUBSCRIPTION_CREATED | SUBSCRIPTION_UPDATED | SUBSCRIPTION_DELETED
| SUBSCRIPTION_TRIAL_ENDING
| INVOICE_PAID | INVOICE_PAYMENT_FAILED | INVOICE_UPCOMING | INVOICE_FINALIZED
| CUSTOMER_CREATED | CUSTOMER_UPDATED | CUSTOMER_DELETED
| CHECKOUT_COMPLETED | CHECKOUT_EXPIRED
| PAYOUT_PAID | PAYOUT_FAILED.

Definition value (t : WebhookEventType) : string :=
  match t with
  | PAYMENT_INTENT_SUCCEEDED => "payment_intent.succeeded"
  | PAYMENT_INTENT_FAILED => "payment_intent.payment_failed"
  | PAYMENT_INTENT_CANCELED => "payment_intent.canceled"
  | CHARGE_SUCCEEDED => "charge.succeeded"
  | CHARGE_FAILED => "charge.failed"
  | CHARGE_REFUNDED => "charge.refunded"
  | CHARGE_DISPUTED => "charge.dispute.created"
  | SUBSCRIPTION_CREATED => "customer.subscription.created"
  | SUBSCRIPTION_UPDATED => "customer.subscription.updated"
  | SUBSCRIPTION_DELETED => "customer.subscription.deleted"
  | SUBSCRIPTION_TRIAL_ENDING => "customer.subscription.trial_will_end"
  | INVOICE_PAID => "invoice.paid"
  | INVOICE_PAYMENT_FAILED => "invoice.payment_failed"
  | INVOICE_UPCOMING => "invoice.upcoming"
  | INVOICE_FINALIZED => "invoice.finalized"
  | CUSTOMER_CREATED => "customer.created"
  | CUSTOMER_UPDATED => "customer.updated"
  | CUSTOMER_DELETED => "customer.deleted"
  | CHECKOUT_COMPLETED => "checkout.session.completed"
  | CHECKOUT_EXPIRED => "checkout.session.expired"
  | PAYOUT_PAID => "payout.paid"
  | PAYOUT_FAILED => "payout.failed"
  end.

(** *** [@dataclass class WebhookEvent] *)
Record WebhookEvent := {
  id : string;
  type : string;
  data : Json;
  created : Z;
  processed_at : option Z;
  attempts : Z;
  last_error : option string
}.

(** [WebhookEvent(id=..., type=..., data=..., created=...)] with the
    dataclass defaults *)
Definition new_event (id_ type_ : string) (data_ : Json) (created_ : Z)
  : WebhookEvent :=
  {| id := id_; type := type_; data := data_; created := created_;
     processed_at := None; attempts := 0; last_error := None |}.

#[global] Instance WebhookEvent_inhabited : Inhabited WebhookEvent :=
  populate (new_event "" "" JNull 0).

(** Attribute assignments [event.attempts = n] and the like *)
Definition set_attempts (n : Z) (e : WebhookEvent) : WebhookEvent :=
  {| id := id e; type := type e; data := data e; created := created e;
     processed_at := processed_at e; attempts := n;
     last_error := last_error e |}.

Definition set_last_error (err : option string) (e : WebhookEvent)
  : WebhookEvent :=
  {| id := id e; type := type e; data := data e; created := created e;
     processed_at := processed_at e; attempts := attempts e;
     last_error := err |}.

Definition set_processed_at (t : option Z) (e : WebhookEvent) : WebhookEvent :=
  {| id := id e; type := type e; data := data e; created := created e;
     processed_at := t; attempts := attempts e;
     last_error := last_error e |}.

(** The dictionaries the processor returns, one constructor per shape *)
Inductive Response :=
| Duplicate (event_id : string)
| Ignored (event_type : string)
| PartialFailure (event_id : string) (errors : list string)
| Processed (event_id : string)
| NotFound.

(** [result["status"]] *)
Definition status (r : Response) : string :=
  match r with
  | Duplicate _ => "duplicate"
  | Ignored _ => "ignored"
  | PartialFailure _ _ => "partial_failure"
  | Processed _ => "processed"
  | NotFound => "not_found"
  end.

(** [request.body()] and [request.headers] *)
Record Request := {
  body : string;
  headers : gmap string string
}.

(** What the processor did to the outside, in order: each handler call
    (with the [attempts] value the handler saw) and each back-off sleep. *)
Inductive Call :=
| Invoke (handler_name : string) (event_id : string) (attempt : Z)
| Sleep (seconds : Z).

Definition is_invoke (c : Call) : bool :=
  match c with Invoke _ _ _ => true | Sleep _ => false end.

Section Processor.
Context {World : Type} `{!Runtime World} `{!StripeLib}.

(** A registered handler: its [__name__] and what [await handler(event,
    data)] does to the world; [Raise e] is an exception caught by
    [except Exception].  A handler reads the event it is given; it is taken
    not to assign to it, nor to call back into the processor. *)
Record Handler := {
  name : string;
  call : WebhookEvent -> Json -> World -> Outcome unit * World
}.

(** [class WebhookProcessor].  [objects] is the store of the event objects
    that [event_log] and [failed_events] refer to (by index): both lists
    can hold the same object, and an assignment to one of its attributes
    is seen through both. *)
Record WebhookProcessor := {
  webhook_secret : string;
  max_retries : Z;
  retry_delay : Z;
  handlers : gmap string (list Handler);
  event_log : list nat;
  failed_events : list nat;
  objects : list WebhookEvent
}.

(** [WebhookProcessor.__init__], with its defaults for the two optional
    arguments *)
Definition __init__ (secret : string) (max_retries_ retry_delay_ : option Z)
  : WebhookProcessor :=
  {| webhook_secret := secret;
     max_retries := default 3 max_retries_;
     retry_delay := default 60 retry_delay_;
     handlers := ∅;
     event_log := [];
     failed_events := [];
     objects := [] |}.

(** The processor, the world its handlers act on, and the calls made *)
Record State := {
  proc : WebhookProcessor;
  world : World;
  trace : list Call
}.

Definition with_proc (f : WebhookProcessor -> WebhookProcessor) (s : State)
  : State :=
  {| proc := f (proc s); world := world s; trace := trace s |}.

Definition event_at (s : State) (r : nat) : WebhookEvent :=
  objects (proc s) !!! r.

(** [event.<attribute> = ...] on the object at [r] *)
Definition assign (r : nat) (f : WebhookEvent -> WebhookEvent) (s : State)
  : State :=
  with_proc (fun p =>
    {| webhook_secret := webhook_secret p; max_retries := max_retries p;
       retry_delay := retry_delay p; handlers := handlers p;
       event_log := event_log p; failed_events := failed_events p;
       objects := alter f r (objects p) |}) s.

(** A fresh object; its reference is the next free index. *)
Definition alloc (e : WebhookEvent) (s : State) : nat * State :=
  (length (objects (proc s)),
   with_proc (fun p =>
    {| webhook_secret := webhook_secret p; max_retries := max_retries p;
       retry_delay := retry_delay p; handlers := handlers p;
       event_log := event_log p; failed_events := failed_events p;
       objects := objects p ++ [e] |}) s).

(** [self.event_log.append(event)] *)
Definition log_append (r : nat) (s : State) : State :=
  with_proc (fun p =>
    {| webhook_secret := webhook_secret p; max_retries := max_retries p;
       retry_delay := retry_delay p; handlers := handlers p;
       event_log := event_log p ++ [r]; failed_events := failed_events p;
       objects := objects p |}) s.

(** [self.failed_events.append(event)] *)
Definition failed_append (r : nat) (s : State) : State :=
  with_proc (fun p =>
    {| webhook_secret := webhook_secret p; max_retries := max_retries p;
       retry_delay := retry_delay p; handlers := handlers p;
       event_log := event_log p; failed_events := failed_events p ++ [r];
       objects := objects p |}) s.

(** [self.failed_events.pop(i)] *)
Definition failed_pop (i : nat) (s : State) : State :=
  with_proc (fun p =>
    {| webhook_secret := webhook_secret p; max_retries := max_retries p;
       retry_delay := retry_delay p; handlers := handlers p;
       event_log := event_log p; failed_events := delete i (failed_events p);
       objects := objects p |}) s.

(** [WebhookProcessor.on(event_type)(func)] *)
Definition on (event_type : WebhookEventType) (func : Handler) (s : State)
  : State :=
  with_proc (fun p =>
    {| webhook_secret := webhook_secret p; max_retries := max_retries p;
       retry_delay := retry_delay p;
       handlers :=
         <[value event_type :=
             default [] (handlers p !! value event_type) ++ [func]]>
           (handlers p);
       event_log := event_log p; failed_events := failed_events p;
       objects := objects p |}) s.

(** [WebhookProcessor.verify_signature]; an exception of another class
    than the two caught is not handled here. *)
Definition verify_signature (payload signature : string)
    (p : WebhookProcessor) : Outcome bool :=
  match construct_event payload signature (webhook_secret p) with
  | Return _ => Return true
  | Raise (ValueError _) => Return false
  | Raise (SignatureVerificationError _) => Return false
  | Raise e => Raise e
  end.

(** [WebhookProcessor._async_sleep] *)
Definition _async_sleep (seconds : Z) (s : State) : State :=
  {| proc := proc s;
     world := asyncio_sleep seconds (world s);
     trace := trace s ++ [Sleep seconds] |}.

(** [await handler(event, event.data)] on the object at [r] *)
Definition invoke (h : Handler) (r : nat) (s : State)
  : Outcome unit * State :=
  let event := event_at s r in
  let '(res, w) := call h event (data event) (world s) in
  (res,
   {| proc := proc s; world := w;
      trace := trace s ++ [Invoke (name h) (id event) (attempts event)] |}).

(** The body of the attempts loop up to the handler call:
    [event.attempts = attempt + 1], then [await handler(event, event.data)] *)
Definition try_handler (h : Handler) (r : nat) (attempt : Z) (s : State)
  : Outcome unit * State :=
  invoke h r (assign r (set_attempts (attempt + 1)) s).

(** Its [except Exception as e:] branch *)
Definition on_exception (h : Handler) (r : nat) (attempt : Z) (e : Exn)
    (errors : list string) (s : State) : list string * State :=
  let s := assign r (set_last_error (Some (str e))) s in
  let errors := errors ++ [name h +:+ ": " +:+ str e] in
  if bool_decide (attempt < max_retries (proc s) - 1)
  then (errors, _async_sleep (retry_delay (proc s) * (attempt + 1)) s)
  else (errors, s).

(** The inner loop of [_process_event],
    [for attempt in range(self.max_retries): ... else: ...], run over the
    attempts still to come.  The boolean tells whether the loop was left
    by [break]; [errors] is the local list of that name. *)
Fixpoint run_attempts (h : Handler) (r : nat) (todo : list Z)
    (errors : list string) (s : State) : bool * list string * State :=
  match todo with
  | [] => (false, errors, s)
  | attempt :: todo' =>
      match try_handler h r attempt s with
      | (Return _, s) => (true, errors, s)
      | (Raise e, s) =>
          let '(errors, s) := on_exception h r attempt e errors s in
          run_attempts h r todo' errors s
      end
  end.

(** One turn of the outer loop [for handler in handlers:] *)
Definition run_handler (r : nat) (acc : list string * State) (h : Handler)
  : list string * State :=
  let '(errors, s) := acc in
  match run_attempts h r (range (max_retries (proc s))) errors s with
  | (true, errors, s) => (errors, s)
  | (false, errors, s) => (errors, failed_append r s)
  end.

(** [WebhookProcessor._process_event] *)
Definition _process_event (r : nat) (s : State) : Response * State :=
  let event := event_at s r in
  match default [] (handlers (proc s) !! type event) with
  | [] => (Ignored (type event), log_append r s)
  | hs =>
      let '(errors, s) := foldl (run_handler r) ([], s) hs in
      let s := assign r (set_processed_at (Some (time_time (world s)))) s in
      let s := log_append r s in
      match errors with
      | [] => (Processed (id event), s)
      | _ => (PartialFailure (id event) errors, s)
      end
  end.

(** The envelope fields read off [event_data] in [process] *)
Definition parse_event (event_data : Json) : Outcome WebhookEvent :=
  id_ ← subscript event_data "id" ≫= as_str;
  type_ ← subscript event_data "type" ≫= as_str;
  data_ ← subscript event_data "data" ≫= (fun d => subscript d "object");
  created_ ← subscript event_data "created" ≫= as_int;
  Return (new_event id_ type_ data_ created_).

(** [any(e.id == event_id for e in self.event_log)] *)
Definition in_log (event_id : string) (s : State) : bool :=
  existsb (fun r => String.eqb (id (event_at s r)) event_id)
          (event_log (proc s)).

(** [WebhookProcessor.process].  The event object is entered into the
    store once it is known not to be a duplicate: before that nothing but
    the local variable refers to it. *)
Definition process (request : Request) (s : State)
  : Outcome Response * State :=
  let payload := body request in
  let signature := default "" (headers request !! "Stripe-Signature") in
  match verify_signature payload signature (proc s) with
  | Raise e => (Raise e, s)
  | Return false => (Raise (HTTPException 400 "Invalid signature"), s)
  | Return true =>
      match json_loads payload with
      | None => (Raise (HTTPException 400 "Invalid JSON"), s)
      | Some event_data =>
          match parse_event event_data with
          | Raise e => (Raise e, s)
          | Return event =>
              if in_log (id event) s
              then (Return (Duplicate (id event)), s)
              else
                let '(r, s) := alloc event s in
                let '(result, s) := _process_event r s in
                (Return result, s)
          end
      end
  end.

(** [WebhookProcessor.get_event] *)
Definition get_event (event_id : string) (s : State) : option WebhookEvent :=
  event_at s <$>
    (snd <$> list_find (fun r => id (event_at s r) = event_id)
                       (event_log (proc s))).

(** [WebhookProcessor.get_failed_events] *)
Definition get_failed_events (s : State) : list WebhookEvent :=
  event_at s <$> failed_events (proc s).

(** [WebhookProcessor.retry_failed] *)
Definition retry_failed (event_id : string) (s : State) : Response * State :=
  match list_find (fun r => id (event_at s r) = event_id)
                  (failed_events (proc s)) with
  | None => (NotFound, s)
  | Some (i, r) =>
      let s := failed_pop i s in
      let s := assign r (set_attempts 0) s in
      let s := assign r (set_last_error None) s in
      _process_event r s
  end.

(** *** Vocabulary of the statements *)

(** The handler calls in a trace, and the handlers called for a first
    attempt, in order *)
Definition invocations (t : list Call) : list Call :=
  filter (fun c => Is_true (is_invoke c)) t.


(** How many entries of the dead-letter list carry the event id *)
Definition dead_letter_entries (event_id : string) (s : State) : nat :=
  length (filter (fun r => id (event_at s r) = event_id)
                 (failed_events (proc s))).


(** The handler raises on each of the next [failures] attempts, the first of
    them being attempt number [attempt], made on [event] in world [w], and
    returns on the attempt after them.  Each attempt is made as
    [_process_event] makes it: the event carries the number of the attempt
    and the text of the last exception, and after a failed attempt the
    processor has slept [delay] times the number of that attempt. *)
Fixpoint fails_then_succeeds (h : Handler) (delay : Z) (failures : nat)
    (attempt : Z) (event : WebhookEvent) (w : World) : Prop :=
  match failures with
  | O =>
      exists w',
        call h (set_attempts attempt event) (data event) w = (Return (), w')
  | S failures =>
      exists e w',
        call h (set_attempts attempt event) (data event) w = (Raise e, w') /\
        fails_then_succeeds h delay failures (attempt + 1)
          (set_last_error (Some (str e)) (set_attempts attempt event))
          (asyncio_sleep (delay * attempt) w')
  end.

(** In the run that the processor in state [s] makes of the handler on
    [event], the handler fails on attempts 1 to [k - 1] and succeeds on
    attempt [k], for whatever reason: the attempt number the event carries,
    or the world the attempt is made in. *)
Definition succeeds_at (k : Z) (h : Handler) (event : WebhookEvent)
    (s : State) : Prop :=
  1 <= k /\
  fails_then_succeeds h (retry_delay (proc s)) (Z.to_nat (k - 1)) 1 event
    (world s).

(** An observation of the world that counts the calls of the handler: every
    call moves it up by one, whatever the call's outcome, and sleeping
    leaves it alone. *)
Definition counts_calls (count : World -> Z) (h : Handler) : Prop :=
  (forall event d w, count (call h event d w).2 = count w + 1) /\
  (forall seconds w, count (asyncio_sleep seconds w) = count w).

(** The request passes verification and parses into [event] *)
Definition delivers (request : Request) (s : State) (event : WebhookEvent)
  : Prop :=
  verify_signature (body request)
    (default "" (headers request !! "Stripe-Signature")) (proc s)
    = Return true /\
  exists event_data,
    json_loads (body request) = Some event_data /\
    parse_event event_data = Return event.

(** What the provider sent, which no assignment changes *)
Definition envelope (e : WebhookEvent) : string * string * Json * Z :=
  (id e, type e, data e, created e).

(** [s'] differs from [s] at most in the world, the trace, the dead-letter
    list and the mutable attributes of events. *)
Record frame (s s' : State) : Prop := {
  frame_secret : webhook_secret (proc s') = webhook_secret (proc s);
  frame_max_retries : max_retries (proc s') = max_retries (proc s);
  frame_retry_delay : retry_delay (proc s') = retry_delay (proc s);
  frame_handlers : handlers (proc s') = handlers (proc s);
  frame_event_log : event_log (proc s') = event_log (proc s);
  frame_length : length (objects (proc s')) = length (objects (proc s));
  frame_envelope :
    forall r, envelope (event_at s' r) = envelope (event_at s r)
}.

(** Between two calls of its methods, every event the processor refers to
    exists, and every dead-letter entry is also in the event log. *)
Definition wf (s : State) : Prop :=
  Forall (fun r => (r < length (objects (proc s)))%nat)
         (event_log (proc s)) /\
  failed_events (proc s) ⊆ event_log (proc s).

(** The states a processor goes through from its construction *)
Inductive reachable : State -> Prop :=
| reachable_init secret mr rd w :
    reachable {| proc := __init__ secret mr rd; world := w; trace := [] |}
| reachable_on event_type func s :
    reachable s -> reachable (on event_type func s)
| reachable_process request s :
    reachable s -> reachable (process request s).2
| reachable_retry_failed event_id s :
    reachable s -> reachable (retry_failed event_id s).2.

(** The states the processor can be in after [s]: its methods were called
    and the world changed from outside, any number of times. *)
Inductive later (s : State) : State -> Prop :=
| later_now : later s s
| later_on event_type func s' :
    later s s' -> later s (on event_type func s')
| later_process request s' :
    later s s' -> later s (process request s').2
| later_retry_failed event_id s' :
    later s s' -> later s (retry_failed event_id s').2
| later_world w s' :
    later s s' ->
    later s {| proc := proc s'; world := w; trace := trace s' |}.

End Processor.

Arguments Handler World : clear implicits.
Arguments WebhookProcessor World : clear implicits.
Arguments State World : clear implicits.

End Webhooks.

Module Events.

(** *** [class EventType(str, Enum)] *)
Inductive EventType :=
| CHECKOUT_SESSION_COMPLETED | CHECKOUT_SESSION_EXPIRED
| CHECKOUT_SESSION_ASYNC_PAYMENT_SUCCEEDED
| CHECKOUT_SESSION_ASYNC_PAYMENT_FAILED
| SUBSCRIPTION_CREATED | SUBSCRIPTION_UPDATED | SUBSCRIPTION_DELETED
| SUBSCRIPTION_TRIAL_WILL_END | SUBSCRIPTION_PAUSED | SUBSCRIPTION_RESUMED
| INVOICE_CREATED | INVOICE_FINALIZED | INVOICE_PAID | INVOICE_PAYMENT_FAILED
| INVOICE_PAYMENT_ACTION_REQUIRED | INVOICE_UPCOMING
| INVOICE_MARKED_UNCOLLECTIBLE | INVOICE_VOIDED
| PAYMENT_INTENT_SUCCEEDED | PAYMENT_INTENT_FAILED
| PAYMENT_INTENT_REQUIRES_ACTION
| CHARGE_SUCCEEDED | CHARGE_FAILED | CHARGE_REFUNDED
| CHARGE_DISPUTE_CREATED | CHARGE_DISPUTE_CLOSED
| CUSTOMER_CREATED | CUSTOMER_UPDATED | CUSTOMER_DELETED
| PAYMENT_METHOD_ATTACHED | PAYMENT_METHOD_DETACHED | PAYMENT_METHOD_UPDATED
| PRODUCT_CREATED | PRODUCT_UPDATED | PRICE_CREATED | PRICE_UPDATED.

Definition value (t : EventType) : string :=
  match t with
  | CHECKOUT_SESSION_COMPLETED => "checkout.session.completed"
  | CHECKOUT_SESSION_EXPIRED => "checkout.session.expired"
  | CHECKOUT_SESSION_ASYNC_PAYMENT_SUCCEEDED =>
      "checkout.session.async_payment_succeeded"
  | CHECKOUT_SESSION_ASYNC_PAYMENT_FAILED =>
      "checkout.session.async_payment_failed"
  | SUBSCRIPTION_CREATED => "customer.subscription.created"
  | SUBSCRIPTION_UPDATED => "customer.subscription.updated"
  | SUBSCRIPTION_DELETED => "customer.subscription.deleted"
  | SUBSCRIPTION_TRIAL_WILL_END => "customer.subscription.trial_will_end"
  | SUBSCRIPTION_PAUSED => "customer.subscription.paused"
  | SUBSCRIPTION_RESUMED => "customer.subscription.resumed"
  | INVOICE_CREATED => "invoice.created"
  | INVOICE_FINALIZED => "invoice.finalized"
  | INVOICE_PAID => "invoice.paid"
  | INVOICE_PAYMENT_FAILED => "invoice.payment_failed"
  | INVOICE_PAYMENT_ACTION_REQUIRED => "invoice.payment_action_required"
  | INVOICE_UPCOMING => "invoice.upcoming"
  | INVOICE_MARKED_UNCOLLECTIBLE => "invoice.marked_uncollectible"
  | INVOICE_VOIDED => "invoice.voided"
  | PAYMENT_INTENT_SUCCEEDED => "payment_intent.succeeded"
  | PAYMENT_INTENT_FAILED => "payment_intent.payment_failed"
  | PAYMENT_INTENT_REQUIRES_ACTION => "payment_intent.requires_action"
  | CHARGE_SUCCEEDED => "charge.succeeded"
  | CHARGE_FAILED => "charge.failed"
  | CHARGE_REFUNDED => "charge.refunded"
  | CHARGE_DISPUTE_CREATED => "charge.dispute.created"
  | CHARGE_DISPUTE_CLOSED => "charge.dispute.closed"
  | CUSTOMER_CREATED => "customer.created"
  | CUSTOMER_UPDATED => "customer.updated"
  | CUSTOMER_DELETED => "customer.deleted"
  | PAYMENT_METHOD_ATTACHED => "payment_method.attached"
  | PAYMENT_METHOD_DETACHED => "payment_method.detached"
  | PAYMENT_METHOD_UPDATED => "payment_method.updated"
  | PRODUCT_CREATED => "product.created"
  | PRODUCT_UPDATED => "product.updated"
  | PRICE_CREATED => "price.created"
  | PRICE_UPDATED => "price.updated"
  end.

(** *** The collaborators *)

(** Modelled from the spec: the Storage collaborator ([get(key) ->
    value|null], [put(key, value)]) that the router and its handlers are
    given; the repository binds none to them.  It is a key-value map, as
    the in-memory [SimpleStorage] of [api_keys.py] is; [rejects] names the
    keys at which a write fails (a raised exception), so that ledger-write
    failures can be told apart from handler failures. *)
Record Storage := {
  cells : gmap string Json;
  rejects : string -> bool
}.

(** An email passed to [email_sender.send(to, subject, template, data)] *)
Record Email := {
  to : string;
  subject : string;
  template : string;
  email_data : Json
}.

(** Modelled from the spec: the email sender behind the Notification Service
    ([send(to, subject, template, data)], awaited for completion or failure).
    [down] makes every send raise. *)
Record EmailSender := {
  outbox : list Email;
  down : bool
}.

(** The calls made to collaborators and handlers, in order *)
Inductive Effect :=
| Handle (event_id : string)
| Put (key : string) (v : Json)
| Send (email : Email).


(** What the router and its handlers act on.  [now] is the reading that
    [datetime.utcnow()] and [time.time()] give during the call at hand;
    between two calls time passes, which is the environment [at_time] a
    later reading. *)
Record Env := {
  storage : Storage;
  email_sender : EmailSender;
  now : Z;
  journal : list Effect
}.

Definition at_time (clock : Z) (env : Env) : Env :=
  {| storage := storage env; email_sender := email_sender env;
     now := clock; journal := journal env |}.

Definition record_effect (eff : Effect) (env : Env) : Env :=
  {| storage := storage env; email_sender := email_sender env;
     now := now env; journal := journal env ++ [eff] |}.

(** Code that acts on the collaborators and may raise *)
Definition Eff (A : Type) : Type := Env -> Outcome A * Env.

#[global] Instance Eff_ret : MRet Eff := fun A a env => (Return a, env).

#[global] Instance Eff_bind : MBind Eff := fun A B k m env =>
  match m env with
  | (Return a, env') => k a env'
  | (Raise e, env') => (Raise e, env')
  end.

(** [await self.storage.get(key)] *)
Definition storage_get (key : string) : Eff (option Json) :=
  fun env => (Return (cells (storage env) !! key), env).

(** [await self.storage.put(key, value)] *)
Definition storage_put (key : string) (v : Json) : Eff unit :=
  fun env =>
    let env := record_effect (Put key v) env in
    if rejects (storage env) key
    then (Raise (Exception "storage write failed"), env)
    else (Return (),
          {| storage := {| cells := <[key := v]> (cells (storage env));
                           rejects := rejects (storage env) |};
             email_sender := email_sender env;
             now := now env; journal := journal env |}).

(** [await self.email_sender.send(to=..., subject=..., template=...,
    data=...)] *)
Definition send (email : Email) : Eff unit :=
  fun env =>
    let env := record_effect (Send email) env in
    if down (email_sender env)
    then (Raise (Exception "email delivery failed"), env)
    else (Return (),
          {| storage := storage env;
             email_sender :=
               {| outbox := outbox (email_sender env) ++ [email];
                  down := down (email_sender env) |};
             now := now env; journal := journal env |}).

(** String formatting done by the Python runtime: [datetime.utcnow()
    .isoformat()] at a clock reading, and the format [f"{cents / 100:.2f}"]
    of an amount in cents. *)
Class Formatting := {
  isoformat : Z -> string;
  format_2f_of_cents : Z -> string
}.

(** The dictionaries [process_webhook] returns *)
Inductive Response :=
| ErrorResponse (error : string) (code : Z)
| AlreadyProcessed (event_id : string)
| Unhandled (event_type : string)
| Processed (event_id : string) (result : Json).

(** [result["status"]]: an HTTP code for the two rejections, a status string
    otherwise *)
Definition status (r : Response) : Json :=
  match r with
  | ErrorResponse _ code => JInt code
  | AlreadyProcessed _ => JStr "already_processed"
  | Unhandled _ => JStr "unhandled"
  | Processed _ _ => JStr "processed"
  end.

(** [class EventHandler(ABC)]: the two abstract members *)
Record EventHandler := {
  event_types : list EventType;
  handle : stripe.Event -> Eff Json
}.

Section Handlers.
Context `{!Formatting}.

(** [NotificationService.send_admin_alert] *)
Definition send_admin_alert (subject_ message : string) : Eff unit :=
  send {| to := "admin@example.com";
          subject := "[ALERT] " +:+ subject_;
          template := "admin_alert";
          email_data := JDict [("message", JStr message)] |}.

(** [class DisputeEventHandler]: [notifications] tells whether a
    notification service was given ([None] otherwise); the storage and the
    service's email sender are the ones of the environment. *)
Record DisputeEventHandler := { notifications : bool }.

Definition opt_int (o : option Z) : Json :=
  match o with Some n => JInt n | None => JNull end.

(** The record that [_handle_created] stores under [dispute:<id>] *)
Definition dispute_record (dispute : stripe.Dispute) (clock : Z) : Json :=
  JDict [("charge_id", JStr (stripe.charge dispute));
         ("amount", JInt (stripe.amount dispute));
         ("reason", JStr (stripe.reason dispute));
         ("status", JStr (stripe.dispute_status dispute));
         ("created_at", JStr (isoformat clock));
         ("evidence_due_by",
          opt_int (stripe.due_by <$> stripe.evidence_details dispute))].

(** [DisputeEventHandler._handle_created] *)
Definition _handle_created (self : DisputeEventHandler)
    (dispute : stripe.Dispute) : Eff Json :=
  fun env =>
  ((* Store dispute - this is critical! *)
   _ ← storage_put ("dispute:" +:+ stripe.dispute_id dispute)
                   (dispute_record dispute (now env));
   (* Alert admin immediately *)
   _ ← (if notifications self
        then send_admin_alert
               ("URGENT: Dispute opened for $"
                  +:+ format_2f_of_cents (stripe.amount dispute))
               ("Dispute reason: " +:+ stripe.reason dispute
                  +:+ ". Evidence due by: "
                  +:+ match stripe.evidence_details dispute with
                      | Some details => pretty (stripe.due_by details)
                      | None => "N/A"
                      end)
        else mret ());
   mret (JDict [("handled", JBool true);
                ("action", JStr "dispute_alert_sent")])) env.

(** [DisputeEventHandler._handle_closed] *)
Definition _handle_closed (self : DisputeEventHandler)
    (dispute : stripe.Dispute) : Eff Json :=
  fun env =>
  (_ ← storage_put ("dispute:" +:+ stripe.dispute_id dispute)
                   (JDict [("status", JStr (stripe.dispute_status dispute));
                           ("closed_at", JStr (isoformat (now env)))]);
   mret (JDict [("handled", JBool true);
                ("status", JStr (stripe.dispute_status dispute))])) env.

(** [DisputeEventHandler.handle]; reading a dispute's attributes off an
    object that is no dispute raises. *)
Definition dispute_handle (self : DisputeEventHandler)
    (event : stripe.Event) : Eff Json :=
  let with_dispute (k : stripe.Dispute -> Eff Json) : Eff Json :=
    match stripe.object event with
    | stripe.DisputeObject dispute => k dispute
    | stripe.OtherObject _ =>
        fun env => (Raise (AttributeError "id"), env)
    end in
  if String.eqb (stripe.type event) (value CHARGE_DISPUTE_CREATED)
  then with_dispute (_handle_created self)
  else if String.eqb (stripe.type event) (value CHARGE_DISPUTE_CLOSED)
  then with_dispute (_handle_closed self)
  else mret (JDict [("handled", JBool false)]).

Definition dispute_event_handler (self : DisputeEventHandler)
  : EventHandler :=
  {| event_types := [CHARGE_DISPUTE_CREATED; CHARGE_DISPUTE_CLOSED];
     handle := dispute_handle self |}.

End Handlers.

Section Router.
Context `{!StripeLib}.

(** [class EventRouter]; its [storage] is the one of the environment. *)
Record EventRouter := {
  webhook_secret : string;
  handlers : gmap string EventHandler
}.

(** [EventRouter.__init__] *)
Definition __init__ (secret : string) : EventRouter :=
  {| webhook_secret := secret; handlers := ∅ |}.

(** [EventRouter.register_handler] *)
Definition register_handler (handler : EventHandler) (self : EventRouter)
  : EventRouter :=
  {| webhook_secret := webhook_secret self;
     handlers :=
       foldl (fun hs event_type => <[value event_type := handler]> hs)
             (handlers self) (event_types handler) |}.

(** The value stored under [event:<id>] *)
Definition processed_entry (event : stripe.Event) (clock : Z) (result : Json)
  : Json :=
  JDict [("event_id", JStr (stripe.id event));
         ("event_type", JStr (stripe.type event));
         ("processed_at", JInt clock);
         ("success", JBool true);
         ("data", result)].

(** The value stored under [failed:<id>] *)
Definition failed_entry (event : stripe.Event) (clock : Z) (e : Exn) : Json :=
  JDict [("event_id", JStr (stripe.id event));
         ("event_type", JStr (stripe.type event));
         ("error", JStr (str e));
         ("failed_at", JInt clock)].

(** The [except Exception as e:] branch of [process_webhook]: write the
    failure record, then re-raise [e]. *)
Definition log_failure {A} (event : stripe.Event) (e : Exn) : Eff A :=
  fun env =>
    match storage_put ("failed:" +:+ stripe.id event)
                      (failed_entry event (now env) e) env with
    | (Return _, env) => (Raise e, env)
    | (Raise e', env) => (Raise e', env)
    end.

(** The [try:] block of [process_webhook] *)
Definition run_handler (handler : EventHandler) (event : stripe.Event)
    (event_key : string) : Eff Response :=
  fun env =>
    match handle handler event (record_effect (Handle (stripe.id event)) env)
    with
    | (Raise e, env) => log_failure event e env
    | (Return result, env) =>
        match storage_put event_key
                          (processed_entry event (now env) result) env with
        | (Raise e, env) => log_failure event e env
        | (Return _, env) =>
            (Return (Processed (stripe.id event) result), env)
        end
    end.

(** [EventRouter.process_webhook] *)
Definition process_webhook (self : EventRouter) (payload signature : string)
  : Eff Response :=
  match construct_event payload signature (webhook_secret self) with
  | Raise (ValueError _) => mret (ErrorResponse "Invalid payload" 400)
  | Raise (SignatureVerificationError _) =>
      mret (ErrorResponse "Invalid signature" 401)
  | Raise e => fun env => (Raise e, env)
  | Return event =>
      let event_key := "event:" +:+ stripe.id event in
      existing ← storage_get event_key;
      if match existing with Some v => truthy v | None => false end
      then mret (AlreadyProcessed (stripe.id event))
      else
        match handlers self !! stripe.type event with
        | None => mret (Unhandled (stripe.type event))
        | Some handler => run_handler handler event event_key
        end
  end.

(** *** Vocabulary of the statements *)

(** The ledger holds the event as processed: a truthy value is stored under
    [event:<id>]. *)
Definition in_ledger (event_id : string) (env : Env) : Prop :=
  exists v,
    cells (storage env) !! ("event:" +:+ event_id) = Some v /\
    truthy v = true.

(** A handler that leaves the ledger alone: whatever it does, an event that
    the ledger holds as processed is still held so afterwards. *)
Definition keeps_ledger (handler : EventHandler) : Prop :=
  forall event event_id env,
    in_ledger event_id env ->
    in_ledger event_id (handle handler event env).2.

(** The environments that can follow [env]: routers whose handlers leave the
    ledger alone processed webhooks, and clock, email sender and journal
    changed from outside, any number of times. *)
Inductive later (env : Env) : Env -> Prop :=
| later_now : later env env
| later_process_webhook self payload signature env' :
    (forall event_type handler,
       handlers self !! event_type = Some handler -> keeps_ledger handler) ->
    later env env' ->
    later env (process_webhook self payload signature env').2
| later_outside env' env'' :
    later env env' -> storage env'' = storage env' -> later env env''.

End Router.

End Events.

(** ** Test doubles

    Concrete collaborators on which the statements below are exercised. *)
Module Fixtures.

(** A world with a clock and one external service handlers depend on *)
Record World := { clock : Z; service_up : bool }.

Definition World_runtime : Runtime World :=
  {| time_time := clock;
     asyncio_sleep := fun seconds w =>
       {| clock := clock w + seconds; service_up := service_up w |} |}.

Definition dispute_1 : stripe.Dispute :=
  {| stripe.dispute_id := "dp_1"; stripe.charge := "ch_1";
     stripe.amount := 5000; stripe.reason := "fraudulent";
     stripe.dispute_status := "needs_response";
     stripe.evidence_details := None |}.

(** A stand-in for the SDK: the payload is the bare event id, every event
    is a [charge.dispute.created], and a signature is good when it equals
    the secret. *)
Definition stub_stripe : StripeLib :=
  {| construct_event := fun payload signature secret =>
       if String.eqb payload "" then Raise (ValueError "empty payload")
       else if negb (String.eqb signature secret)
       then Raise (SignatureVerificationError "no match")
       else Return {| stripe.id := payload;
                      stripe.type := "charge.dispute.created";
                      stripe.object := stripe.DisputeObject dispute_1;
                      stripe.previous_attributes := None |};
     json_loads := fun payload =>
       if String.eqb payload "" then None
       else Some (JDict [("id", JStr payload);
                         ("type", JStr "charge.dispute.created");
                         ("data", JDict [("object", JDict [])]);
                         ("created", JInt 1700000000)]) |}.

Definition stub_formatting : Events.Formatting :=
  {| Events.isoformat := fun clock => pretty clock;
     Events.format_2f_of_cents := fun cents =>
       pretty (cents `div` 100) +:+ "."
         +:+ pretty ((cents `mod` 100) `div` 10)
         +:+ pretty (cents `mod` 10) |}.

Definition request (event_id signature : string) : Webhooks.Request :=
  {| Webhooks.body := event_id;
     Webhooks.headers := {[ "Stripe-Signature" := signature ]} |}.

(** Handlers of the processor *)
Definition broken (handler_name : string) : Webhooks.Handler World :=
  {| Webhooks.name := handler_name;
     Webhooks.call := fun _ _ w => (Raise (Exception "boom"), w) |}.

Definition fine (handler_name : string) : Webhooks.Handler World :=
  {| Webhooks.name := handler_name;
     Webhooks.call := fun _ _ w => (Return (), w) |}.

Definition flaky (k : Z) : Webhooks.Handler World :=
  {| Webhooks.name := "flaky";
     Webhooks.call := fun event _ w =>
       if bool_decide (Webhooks.attempts event < k)
       then (Raise (Exception "try again"), w)
       else (Return (), w) |}.

Definition needs_service (handler_name : string) : Webhooks.Handler World :=
  {| Webhooks.name := handler_name;
     Webhooks.call := fun _ _ w =>
       if service_up w then (Return (), w)
       else (Raise (Exception "service down"), w) |}.

Definition start (max_retries_ : option Z) : Webhooks.State World :=
  {| Webhooks.proc := Webhooks.__init__ "whsec" max_retries_ None;
     Webhooks.world := {| clock := 0; service_up := false |};
     Webhooks.trace := [] |}.

Definition service_restored (s : Webhooks.State World)
  : Webhooks.State World :=
  {| Webhooks.proc := Webhooks.proc s;
     Webhooks.world := {| clock := clock (Webhooks.world s);
                          service_up := true |};
     Webhooks.trace := Webhooks.trace s |}.

(** Handlers of the router *)
Definition failing : Events.EventHandler :=
  {| Events.event_types := [Events.CHARGE_DISPUTE_CREATED];
     Events.handle := fun _ env => (Raise (Exception "boom"), env) |}.

Definition noting (tag : string) : Events.EventHandler :=
  {| Events.event_types := [Events.CHARGE_DISPUTE_CREATED];
     Events.handle := fun event =>
       _ ← Events.storage_put (tag +:+ ":" +:+ stripe.id event) JNull;
       mret (JDict [("handled", JBool true)]) |}.

Definition env0 : Events.Env :=
  {| Events.storage := {| Events.cells := ∅;
                          Events.rejects := fun _ => false |};
     Events.email_sender := {| Events.outbox := []; Events.down := false |};
     Events.now := 1700000000;
     Events.journal := [] |}.


#[local] Existing Instance World_runtime.
#[local] Existing Instance stub_stripe.
#[local] Existing Instance stub_formatting.

(** Scenarios: handlers registered for the one event type, the event
    [evt_1] and its delivery *)
Definition registered (hs : list (Webhooks.Handler World))
    (max_retries_ : option Z) : Webhooks.State World :=
  foldl (fun s h =>
           Webhooks.on Webhooks.CHARGE_DISPUTED h s)
        (start max_retries_) hs.

Definition evt_1 : Webhooks.WebhookEvent :=
  Webhooks.new_event "evt_1" "charge.dispute.created" (JDict []) 1700000000.

Definition deliver (s : Webhooks.State World)
  : Outcome Webhooks.Response * Webhooks.State World :=
  Webhooks.process (request "evt_1" "whsec") s.

(** The operator raises [max_retries] on a running processor. *)
Definition reconfigured (max_retries_ : Z) (s : Webhooks.State World)
  : Webhooks.State World :=
  {| Webhooks.proc :=
       {| Webhooks.webhook_secret :=
            Webhooks.webhook_secret (Webhooks.proc s);
          Webhooks.max_retries := max_retries_;
          Webhooks.retry_delay := Webhooks.retry_delay (Webhooks.proc s);
          Webhooks.handlers := Webhooks.handlers (Webhooks.proc s);
          Webhooks.event_log := Webhooks.event_log (Webhooks.proc s);
          Webhooks.failed_events := Webhooks.failed_events (Webhooks.proc s);
          Webhooks.objects := Webhooks.objects (Webhooks.proc s) |};
     Webhooks.world := Webhooks.world s;
     Webhooks.trace := Webhooks.trace s |}.

Definition router (hs : list Events.EventHandler) : Events.EventRouter :=
  foldl (fun self h => Events.register_handler h self)
        (Events.__init__ "whsec") hs.

Definition evt_1_dispute : stripe.Event :=
  {| stripe.id := "evt_1";
     stripe.type := "charge.dispute.created";
     stripe.object := stripe.DisputeObject dispute_1;
     stripe.previous_attributes := None |}.

Definition route (self : Events.EventRouter) (env : Events.Env)
  : Outcome Events.Response * Events.Env :=
  Events.process_webhook self "evt_1" "whsec" env.

Definition route_forged (self : Events.EventRouter) (env : Events.Env)
  : Outcome Events.Response * Events.Env :=
  Events.process_webhook self "evt_1" "forged" env.

Definition disputes : Events.EventHandler :=
  Events.dispute_event_handler {| Events.notifications := true |}.

End Fixtures.

(** ** Reporting on the processor *)
Module Reports.
Import Webhooks.

Section Reports.
Context {World : Type}.
Implicit Types (s : State World).

(** The dictionary [stats] returns *)
Record Stats := {
  total_processed : nat;
  failed : nat;
  by_type : gmap string nat;
  handlers_registered : nat
}.

(** The body of the loop in [stats]:
    [by_type[event.type] = by_type.get(event.type, 0) + 1] *)
Definition count_type s (by_type_ : gmap string nat) (r : nat)
  : gmap string nat :=
  <[type (event_at s r) :=
      (default 0 (by_type_ !! type (event_at s r)) + 1)%nat]> by_type_.

(** [WebhookProcessor.stats] *)
Definition stats s : Stats :=
  {| total_processed := length (event_log (proc s));
     failed := length (failed_events (proc s));
     by_type := foldl (count_type s) ∅ (event_log (proc s));
     handlers_registered := size (handlers (proc s)) |}.

(** [by_type.get(event_type, 0)] *)
Definition type_count (st : Stats) (event_type : string) : nat :=
  default 0%nat (by_type st !! event_type).

(** *** Vocabulary of the statements *)

(** The sum of the counts in [by_type] *)
Definition counted (by_type_ : gmap string nat) : nat :=
  map_fold (fun _ n acc => (n + acc)%nat) 0%nat by_type_.


(** How many log entries are events of the type *)
Definition logged_of_type (event_type : string) s : nat :=
  length (filter (fun r => type (event_at s r) = event_type)
                 (event_log (proc s))).

(** No two event objects in the log carry the same id. *)
Definition unique_ids s : Prop :=
  forall r1 r2,
    r1 ∈ event_log (proc s) -> r2 ∈ event_log (proc s) ->
    id (event_at s r1) = id (event_at s r2) -> r1 = r2.

End Reports.

End Reports.

(** ** The pre-built handlers of [webhooks.py] and its factory *)
Module Prebuilt.
Import Webhooks.

(** [print] writes one line to standard output, which is part of the world
    the handlers act on; writing is taken not to raise. *)
Class Console (World : Type) := {
  print : string -> World -> World
}.

(** Python's text of values that the embedding does not compute: [str()] of
    a list or a dict, and [format(cents / 100, ".2f")]. *)
Class Text := {
  str_of_container : Json -> string;
  cents_2f : Z -> string
}.

(** [type(x).__name__] *)
Definition type_name (x : Json) : string :=
  match x with
  | JNull => "NoneType"
  | JBool _ => "bool"
  | JInt _ => "int"
  | JStr _ => "str"
  | JList _ => "list"
  | JDict _ => "dict"
  end.

Section Formatting.
Context `{!Text}.

(** [str(x)], which is what a replacement field [{x}] of an f-string
    inserts *)
Definition py_str (x : Json) : string :=
  match x with
  | JNull => "None"
  | JBool true => "True"
  | JBool false => "False"
  | JInt n => pretty n
  | JStr s => s
  | JList _ | JDict _ => str_of_container x
  end.

(** [x / 100], kept as the number of hundredths; [bool] is a subclass of
    [int], any other JSON type has no [/]. *)
Definition div_100 (x : Json) : Outcome Z :=
  match x with
  | JInt n => Return n
  | JBool b => Return (if b then 1 else 0)
  | _ => Raise (TypeError ("unsupported operand type(s) for /: '"
                           +:+ type_name x +:+ "' and 'int'"))
  end.

(** The replacement fields [{data['key']}] and [{data['key'] / 100:.2f}] *)
Definition item (data : Json) (key : string) : Outcome string :=
  x ← subscript data key;
  Return (py_str x).

Definition dollars (data : Json) (key : string) : Outcome string :=
  x ← subscript data key;
  cents ← div_100 x;
  Return (cents_2f cents).

(** An f-string: its parts are evaluated from left to right and joined; the
    first exception leaves it. *)
Fixpoint fstring (parts : list (Outcome string)) : Outcome string :=
  match parts with
  | [] => Return ""
  | part :: rest =>
      text ← part;
      more ← fstring rest;
      Return (text +:+ more)
  end.

End Formatting.

Section Handlers.
Context {World : Type} `{!Console World} `{!Text}.

(** [print(f"...")]: nothing is written when the f-string raises. *)
Definition print_f (parts : list (Outcome string)) (w : World)
  : Outcome unit * World :=
  match fstring parts with
  | Return line => (Return (), print line w)
  | Raise e => (Raise e, w)
  end.

(** *** [class PaymentHandlers] *)

Definition on_payment_success : Handler World :=
  {| name := "on_payment_success";
     call := fun event data =>
       print_f [Return "ðŸ’° Payment succeeded: ";
              item data "id";
              Return " - $";
              dollars data "amount"] |}.

Definition on_payment_failed : Handler World :=
  {| name := "on_payment_failed";
     call := fun event data =>
       print_f [Return "âŒ Payment failed: ";
              item data "id"] |}.

Definition on_refund : Handler World :=
  {| name := "on_refund";
     call := fun event data =>
       print_f [Return "â†©ï¸ Refund processed: ";
              item data "id";
              Return " - $";
              dollars data "amount_refunded"] |}.

Definition on_dispute : Handler World :=
  {| name := "on_dispute";
     call := fun event data =>
       print_f [Return "âš ï¸ Dispute created: ";
              item data "id"] |}.

(** [PaymentHandlers(processor)]: [__init__] runs [_register_handlers]. *)
Definition PaymentHandlers (processor : State World) : State World :=
  let processor := on PAYMENT_INTENT_SUCCEEDED on_payment_success processor in
  let processor := on PAYMENT_INTENT_FAILED on_payment_failed processor in
  let processor := on CHARGE_REFUNDED on_refund processor in
  on CHARGE_DISPUTED on_dispute processor.

(** *** [class SubscriptionHandlers] *)

Definition on_sub_created : Handler World :=
  {| name := "on_sub_created";
     call := fun event data =>
       print_f [Return "ðŸŽ‰ New subscription: ";
              item data "id";
              Return " - ";
              item data "status"] |}.

Definition on_sub_updated : Handler World :=
  {| name := "on_sub_updated";
     call := fun event data =>
       print_f [Return "ðŸ“ Subscription updated: ";
              item data "id";
              Return " - ";
              item data "status"] |}.

Definition on_sub_deleted : Handler World :=
  {| name := "on_sub_deleted";
     call := fun event data =>
       print_f [Return "ðŸ‘‹ Subscription cancelled: ";
              item data "id"] |}.

Definition on_trial_ending : Handler World :=
  {| name := "on_trial_ending";
     call := fun event data =>
       print_f [Return "â° Trial ending soon: ";
              item data "id"] |}.

Definition SubscriptionHandlers (processor : State World) : State World :=
  let processor := on SUBSCRIPTION_CREATED on_sub_created processor in
  let processor := on SUBSCRIPTION_UPDATED on_sub_updated processor in
  let processor := on SUBSCRIPTION_DELETED on_sub_deleted processor in
  on SUBSCRIPTION_TRIAL_ENDING on_trial_ending processor.

(** *** [class InvoiceHandlers] *)

Definition on_invoice_paid : Handler World :=
  {| name := "on_invoice_paid";
     call := fun event data =>
       print_f [Return "âœ… Invoice paid: ";
              item data "id";
              Return " - $";
              dollars data "amount_paid"] |}.

Definition on_invoice_failed : Handler World :=
  {| name := "on_invoice_failed";
     call := fun event data =>
       print_f [Return "âŒ Invoice payment failed: ";
              item data "id"] |}.

Definition on_invoice_upcoming : Handler World :=
  {| name := "on_invoice_upcoming";
     call := fun event data =>
       print_f [Return "ðŸ“… Upcoming invoice: ";
              item data "id"] |}.

Definition InvoiceHandlers (processor : State World) : State World :=
  let processor := on INVOICE_PAID on_invoice_paid processor in
  let processor := on INVOICE_PAYMENT_FAILED on_invoice_failed processor in
  on INVOICE_UPCOMING on_invoice_upcoming processor.

(** [create_webhook_processor]; each of the three flags defaults to
    [True].  The world is the one the new processor's handlers will act
    on. *)
Definition create_webhook_processor (webhook_secret : string)
    (enable_payment_handlers enable_subscription_handlers
       enable_invoice_handlers : option bool) (w : World) : State World :=
  let processor :=
    {| proc := __init__ webhook_secret None None; world := w; trace := [] |} in
  let processor :=
    if default true enable_payment_handlers
    then PaymentHandlers processor else processor in
  let processor :=
    if default true enable_subscription_handlers
    then SubscriptionHandlers processor else processor in
  let processor :=
    if default true enable_invoice_handlers
    then InvoiceHandlers processor else processor in
  processor.

(** *** Vocabulary of the statements *)

(** The eleven pre-built handlers *)
Definition prebuilt_handlers : list (Handler World) :=
  [on_payment_success; on_payment_failed; on_refund; on_dispute;
   on_sub_created; on_sub_updated; on_sub_deleted; on_trial_ending;
   on_invoice_paid; on_invoice_failed; on_invoice_upcoming].

(** A handler that prints the line it computes from the event's data, and
    raises without having printed when the line cannot be computed *)
Definition prints (line : Json -> Outcome string) (h : Handler World) : Prop :=
  forall event d w,
    call h event d w =
      match line d with
      | Return l => (Return (), print l w)
      | Raise e => (Raise e, w)
      end.

(** The world after sleeping the given numbers of seconds in turn *)
Definition slept `{!Runtime World} (seconds : list Z) (w : World) : World :=
  foldl (fun w n => asyncio_sleep n w) w seconds.

End Handlers.

End Prebuilt.

(** ** Test doubles for the pre-built handlers *)
Module Shop.
Import Webhooks Prebuilt.

(** A world with a clock and a terminal *)
Record World := { clock : Z; stdout : list string }.

Definition World_runtime : Runtime World :=
  {| time_time := clock;
     asyncio_sleep := fun seconds w =>
       {| clock := clock w + seconds; stdout := stdout w |} |}.

Definition World_console : Console World :=
  {| print := fun line w =>
       {| clock := clock w; stdout := stdout w ++ [line] |} |}.

(** Text of amounts that are not negative; containers are abbreviated. *)
Definition plain_text : Text :=
  {| str_of_container := fun _ => "{...}";
     cents_2f := fun cents =>
       pretty (cents `div` 100) +:+ "."
         +:+ pretty ((cents `mod` 100) `div` 10)
         +:+ pretty (cents `mod` 10) |}.

(** The payment intent of a payload: [pi_paid] carries an amount, any other
    one none. *)
Definition payment_intent (payment_id : string) : list (string * Json) :=
  ("id", JStr payment_id)
    :: (if String.eqb payment_id "pi_paid"
        then [("amount", JInt 1999)] else []).

(** A stand-in for the SDK: the payload is the bare id of a payment intent,
    its event is a [payment_intent.succeeded], and a signature is good when
    it equals the secret. *)
Definition stub_stripe : StripeLib :=
  {| construct_event := fun payload signature secret =>
       if String.eqb payload "" then Raise (ValueError "empty payload")
       else if negb (String.eqb signature secret)
       then Raise (SignatureVerificationError "no match")
       else Return {| stripe.id := "evt_" +:+ payload;
                      stripe.type := "payment_intent.succeeded";
                      stripe.object :=
                        stripe.OtherObject (JDict (payment_intent payload));
                      stripe.previous_attributes := None |};
     json_loads := fun payload =>
       if String.eqb payload "" then None
       else Some (JDict [("id", JStr ("evt_" +:+ payload));
                         ("type", JStr "payment_intent.succeeded");
                         ("data",
                          JDict [("object",
                                  JDict (payment_intent payload))]);
                         ("created", JInt 1700000000)]) |}.

Definition request (payment_id : string) : Request :=
  {| body := payment_id;
     headers := {[ "Stripe-Signature" := "whsec" ]} |}.

#[local] Existing Instance World_runtime.
#[local] Existing Instance World_console.
#[local] Existing Instance plain_text.
#[local] Existing Instance stub_stripe.

(** The factory's processor with every group enabled *)
Definition start : State World :=
  create_webhook_processor "whsec" None None None
    {| clock := 0; stdout := [] |}.

Definition evt (payment_id : string) : WebhookEvent :=
  new_event ("evt_" +:+ payment_id) "payment_intent.succeeded"
    (JDict (payment_intent payment_id)) 1700000000.

End Shop.

(** ** Test doubles that leave a mark in the world *)
Module Marks.
Import Webhooks.

(** A world with a clock and the list of the handler calls made in it *)
Record World := { clock : Z; calls : list string }.

Definition World_runtime : Runtime World :=
  {| time_time := clock;
     asyncio_sleep := fun seconds w =>
       {| clock := clock w + seconds; calls := calls w |} |}.

Definition noted (handler_name : string) (w : World) : World :=
  {| clock := clock w; calls := calls w ++ [handler_name] |}.

(** The number of handler calls made *)
Definition count (w : World) : Z := Z.of_nat (length (calls w)).

(** A handler that notes its call and raises *)
Definition broken (handler_name : string) : Handler World :=
  {| name := handler_name;
     call := fun _ _ w => (Raise (Exception "boom"), noted handler_name w) |}.

(** A handler that notes its call and raises as long as the clock reads
    less than [ready]: what it depends on is not up before.  It looks at
    the world only, never at the event. *)
Definition waiting (handler_name : string) (ready : Z) : Handler World :=
  {| name := handler_name;
     call := fun _ _ w =>
       if bool_decide (clock w < ready)
       then (Raise (Exception "not ready"), noted handler_name w)
       else (Return (), noted handler_name w) |}.

#[local] Existing Instance World_runtime.
#[local] Existing Instance Fixtures.stub_stripe.

Definition registered (hs : list (Handler World)) (max_retries_ : option Z)
  : State World :=
  foldl (fun s h => on CHARGE_DISPUTED h s)
        {| proc := __init__ "whsec" max_retries_ None;
           world := {| clock := 0; calls := [] |};
           trace := [] |}
        hs.

Definition deliver (s : State World) : Outcome Response * State World :=
  process (Fixtures.request "evt_1" "whsec") s.

End Marks.

(** * Properties of the [WebhookProcessor] *)
Module ProcessorFacts.
Import Webhooks.

Section Facts.
Context {World : Type} `{!Runtime World} `{!StripeLib}.
Implicit Types (s : State World) (h : Handler World) (r : nat).
Implicit Types (ev : WebhookEvent) (e : Exn) (errors : list string).

Lemma frame_refl s : frame s s.
Proof. by constructor. Qed.

Lemma frame_trans s1 s2 s3 : frame s1 s2 -> frame s2 s3 -> frame s1 s3.
Proof.
  intros [] []; constructor; try congruence; intros r; etrans; eauto.
Qed.

Lemma event_at_assign r f s r' :
  event_at (assign r f s) r' =
    if decide (r = r' ∧ (r < length (objects (proc s)))%nat)
    then f (event_at s r) else event_at s r'.
Proof. unfold event_at; simpl. apply list_lookup_total_alter. Qed.

Lemma event_at_assign_eq r f s :
  (r < length (objects (proc s)))%nat ->
  event_at (assign r f s) r = f (event_at s r).
Proof. intros. rewrite event_at_assign. by rewrite decide_True. Qed.

Lemma frame_assign r f s :
  (forall ev, envelope (f ev) = envelope ev) -> frame s (assign r f s).
Proof.
  intros Hf. constructor; simpl; try done.
  - apply length_alter.
  - intros r'. rewrite event_at_assign. case_decide as Hd; [|done].
    destruct Hd as [-> _]. apply Hf.
Qed.

Lemma invoke_proc h r s : proc (invoke h r s).2 = proc s.
Proof. unfold invoke. by destruct (call h _ _ _). Qed.

Lemma invoke_trace h r s :
  trace (invoke h r s).2 =
    trace s ++ [Invoke (name h) (id (event_at s r)) (attempts (event_at s r))].
Proof. unfold invoke. by destruct (call h _ _ _). Qed.


Lemma frame_of_proc s s' : proc s' = proc s -> frame s s'.
Proof.
  intros Hp. constructor; rewrite ?Hp; try done.
  intros r. unfold event_at. by rewrite Hp.
Qed.

Lemma frame_invoke h r s : frame s (invoke h r s).2.
Proof. apply frame_of_proc, invoke_proc. Qed.

Lemma envelope_set_attempts n ev :
  envelope (set_attempts n ev) = envelope ev.
Proof. done. Qed.

Lemma envelope_set_last_error err ev :
  envelope (set_last_error err ev) = envelope ev.
Proof. done. Qed.

Lemma envelope_set_processed_at t ev :
  envelope (set_processed_at t ev) = envelope ev.
Proof. done. Qed.

Lemma frame_id s s' r : frame s s' -> id (event_at s' r) = id (event_at s r).
Proof. intros [_ _ _ _ _ _ He]. specialize (He r). by inversion He. Qed.

Lemma frame_type s s' r :
  frame s s' -> type (event_at s' r) = type (event_at s r).
Proof. intros [_ _ _ _ _ _ He]. specialize (He r). by inversion He. Qed.

(** *** Traces *)

Lemma invocations_app (t1 t2 : list Call) :
  invocations (t1 ++ t2) = invocations t1 ++ invocations t2.
Proof. apply filter_app. Qed.


(** *** One attempt *)

Lemma try_handler_proc h r a s :
  proc (try_handler h r a s).2 = proc (assign r (set_attempts (a + 1)) s).
Proof. apply invoke_proc. Qed.

Lemma try_handler_frame h r a s : frame s (try_handler h r a s).2.
Proof.
  eapply frame_trans; [|apply frame_invoke].
  apply frame_assign, envelope_set_attempts.
Qed.

Lemma try_handler_failed h r a s :
  failed_events (proc (try_handler h r a s).2) = failed_events (proc s).
Proof. by rewrite try_handler_proc. Qed.

Lemma try_handler_trace h r a s :
  (r < length (objects (proc s)))%nat ->
  trace (try_handler h r a s).2 =
    trace s ++ [Invoke (name h) (id (event_at s r)) (a + 1)].
Proof.
  intros Hr. unfold try_handler. rewrite invoke_trace.
  by rewrite event_at_assign_eq.
Qed.

(** *** The [except] branch *)

Lemma on_exception_errors h r a e errors s :
  (on_exception h r a e errors s).1 = errors ++ [name h +:+ ": " +:+ str e].
Proof. unfold on_exception. by case_bool_decide. Qed.

Lemma on_exception_proc h r a e errors s :
  proc (on_exception h r a e errors s).2 =
    proc (assign r (set_last_error (Some (str e))) s).
Proof. unfold on_exception. by case_bool_decide. Qed.

Lemma on_exception_frame h r a e errors s :
  frame s (on_exception h r a e errors s).2.
Proof.
  eapply frame_trans; [apply (frame_assign r (set_last_error (Some (str e)))),
                        envelope_set_last_error|].
  apply frame_of_proc, on_exception_proc.
Qed.

Lemma on_exception_failed h r a e errors s :
  failed_events (proc (on_exception h r a e errors s).2)
    = failed_events (proc s).
Proof. by rewrite on_exception_proc. Qed.

Lemma on_exception_invocations h r a e errors s :
  invocations (trace (on_exception h r a e errors s).2)
    = invocations (trace s).
Proof.
  unfold on_exception. case_bool_decide; simpl; [|done].
  rewrite invocations_app. simpl. apply app_nil_r.
Qed.


(** *** The attempts loop *)

Lemma run_attempts_cons h r a todo errors s :
  run_attempts h r (a :: todo) errors s =
    match (try_handler h r a s).1 with
    | Return _ => (true, errors, (try_handler h r a s).2)
    | Raise e =>
        run_attempts h r todo
          (on_exception h r a e errors (try_handler h r a s).2).1
          (on_exception h r a e errors (try_handler h r a s).2).2
    end.
Proof.
  simpl. destruct (try_handler h r a s) as [[u|e] s1]; simpl; [done|].
  by destruct (on_exception h r a e errors s1).
Qed.

Lemma run_attempts_frame h r todo errors s :
  frame s (run_attempts h r todo errors s).2 /\
  failed_events (proc (run_attempts h r todo errors s).2)
    = failed_events (proc s).
Proof.
  revert errors s. induction todo as [|a todo IH]; intros errors s.
  { split; [apply frame_refl|done]. }
  rewrite run_attempts_cons.
  destruct (try_handler h r a s).1 as [u|e]; simpl.
  - split; [apply try_handler_frame|apply try_handler_failed].
  - destruct (IH (on_exception h r a e errors (try_handler h r a s).2).1
                 (on_exception h r a e errors (try_handler h r a s).2).2)
      as [Hf Hd].
    split.
    + eapply frame_trans; [apply try_handler_frame|].
      eapply frame_trans; [apply on_exception_frame|apply Hf].
    + by rewrite Hd, on_exception_failed, try_handler_failed.
Qed.




Lemma range_pos (n : Z) :
  1 <= n ->
  exists rest, range n = 0 :: rest /\ Forall (fun a => a ≠ 0) rest.
Proof.
  intros Hn. unfold range.
  destruct (Z.to_nat n) as [|m] eqn:Hm; [lia|].
  exists (Z.of_nat <$> seq 1 m). split; [done|].
  apply Forall_fmap, Forall_forall. intros i Hi%elem_of_seq. simpl. lia.
Qed.




(** One attempt, spelled out *)
Lemma try_handler_call h r a s :
  (r < length (objects (proc s)))%nat ->
  try_handler h r a s =
    ((call h (set_attempts (a + 1) (event_at s r)) (data (event_at s r))
        (world s)).1,
     {| proc := proc (assign r (set_attempts (a + 1)) s);
        world := (call h (set_attempts (a + 1) (event_at s r))
                    (data (event_at s r)) (world s)).2;
        trace := trace s ++ [Invoke (name h) (id (event_at s r)) (a + 1)] |}).
Proof.
  intros Hr. unfold try_handler, invoke.
  rewrite event_at_assign_eq by done.
  cbn [data id attempts set_attempts world assign with_proc].
  by destruct (call h _ _ _).
Qed.

Lemma try_handler_world h r a s :
  (r < length (objects (proc s)))%nat ->
  world (try_handler h r a s).2
    = (call h (set_attempts (a + 1) (event_at s r)) (data (event_at s r))
         (world s)).2.
Proof. intros Hr. by rewrite try_handler_call. Qed.

Lemma try_handler_event h r a s :
  (r < length (objects (proc s)))%nat ->
  event_at (try_handler h r a s).2 r = set_attempts (a + 1) (event_at s r).
Proof.
  intros Hr. unfold event_at. rewrite try_handler_proc.
  by apply event_at_assign_eq.
Qed.

Lemma on_exception_event h r a e errors s :
  (r < length (objects (proc s)))%nat ->
  event_at (on_exception h r a e errors s).2 r
    = set_last_error (Some (str e)) (event_at s r).
Proof.
  intros Hr. unfold event_at. rewrite on_exception_proc.
  by apply event_at_assign_eq.
Qed.

Lemma world_on_exception h r a e errors s :
  world (on_exception h r a e errors s).2
    = if bool_decide (a < max_retries (proc s) - 1)
      then asyncio_sleep (retry_delay (proc s) * (a + 1)) (world s)
      else world s.
Proof. unfold on_exception. simpl. by case_bool_decide. Qed.


(** A handler that fails [failures] times and then succeeds leaves the loop
    by [break] at its first success, with one error recorded per failed
    attempt. *)
Lemma run_attempts_fails_then_succeeds h r (failures i m : nat) errors s :
  fails_then_succeeds h (retry_delay (proc s)) failures (Z.of_nat i + 1)
    (event_at s r) (world s) ->
  (r < length (objects (proc s)))%nat ->
  (failures < m)%nat ->
  Z.of_nat (i + failures) < max_retries (proc s) ->
  exists new_errors,
    (run_attempts h r (Z.of_nat <$> seq i m) errors s).1
      = (true, errors ++ new_errors) /\
    length new_errors = failures /\
    attempts (event_at (run_attempts h r (Z.of_nat <$> seq i m) errors s).2 r)
      = Z.of_nat (i + failures) + 1 /\
    (failures ≠ 0%nat \/ is_Some (last_error (event_at s r)) ->
     is_Some (last_error
                (event_at (run_attempts h r (Z.of_nat <$> seq i m) errors s).2
                   r))) /\
    invocations (trace (run_attempts h r (Z.of_nat <$> seq i m) errors s).2)
      = invocations (trace s)
          ++ ((fun a => Invoke (name h) (id (event_at s r)) (a + 1))
                <$> (Z.of_nat <$> seq i (S failures))) /\
    (forall count,
       counts_calls count h ->
       count (world (run_attempts h r (Z.of_nat <$> seq i m) errors s).2)
         = count (world s) + Z.of_nat (S failures)).
Proof.
  revert i m errors s.
  induction failures as [|failures IH]; intros i m errors s Hrun Hr Hm Hmr;
    (destruct m as [|m]; [lia|]);
    simpl seq; rewrite fmap_cons, run_attempts_cons.
  - destruct Hrun as [w' Hcall].
    rewrite try_handler_call, Hcall by done. cbn [fst snd]. exists [].
    rewrite app_nil_r.
    split_and!; [done|done| | | |].
    + unfold event_at. cbn [proc].
      fold (event_at (assign r (set_attempts (Z.of_nat i + 1)) s) r).
      rewrite event_at_assign_eq by done. simpl. lia.
    + intros [?|Hle]; [done|].
      unfold event_at. cbn [proc].
      fold (event_at (assign r (set_attempts (Z.of_nat i + 1)) s) r).
      by rewrite event_at_assign_eq.
    + cbn [trace]. by rewrite invocations_app.
    + intros count [Hcount _]. cbn [world].
      specialize (Hcount (set_attempts (Z.of_nat i + 1) (event_at s r))
                    (data (event_at s r)) (world s)).
      rewrite Hcall in Hcount. simpl in Hcount. lia.
  - destruct Hrun as (e & w' & Hcall & Hrun).
    pose proof (try_handler_call h r (Z.of_nat i) s Hr) as Htry.
    rewrite Hcall in Htry. cbn [fst snd] in Htry.
    pose proof (try_handler_frame h r (Z.of_nat i) s) as Hf1.
    pose proof (on_exception_frame h r (Z.of_nat i) e errors
                  (try_handler h r (Z.of_nat i) s).2) as Hf2.
    assert ((r < length (objects (proc (try_handler h r (Z.of_nat i) s).2)))%nat)
      as Hr1 by by rewrite (frame_length _ _ Hf1).
    replace (try_handler h r (Z.of_nat i) s).1 with (Raise (A := unit) e)
      by by rewrite Htry.
    rewrite on_exception_errors.
    destruct (IH (S i) m (errors ++ [name h +:+ ": " +:+ str e])
                (on_exception h r (Z.of_nat i) e errors
                   (try_handler h r (Z.of_nat i) s).2).2)
      as (new_errors & Hres & Hlen & Hatt & Hlast & Htrace & Hcount).
    { rewrite (frame_retry_delay _ _ Hf2), (frame_retry_delay _ _ Hf1).
      rewrite on_exception_event, try_handler_event by done.
      rewrite world_on_exception, (frame_max_retries _ _ Hf1),
        (frame_retry_delay _ _ Hf1), try_handler_world by done.
      rewrite Hcall. cbn [snd].
      rewrite bool_decide_eq_true_2 by lia.
      by replace (Z.of_nat (S i) + 1) with (Z.of_nat i + 1 + 1) by lia. }
    { by rewrite (frame_length _ _ Hf2). }
    { lia. }
    { rewrite (frame_max_retries _ _ Hf2), (frame_max_retries _ _ Hf1). lia. }
    exists ((name h +:+ ": " +:+ str e) :: new_errors).
    rewrite Hres, Hatt, Htrace, on_exception_invocations.
    rewrite try_handler_trace, invocations_app
      by done.
    rewrite (frame_id _ _ r Hf2),
      (frame_id _ _ r Hf1).
    split_and!.
    + by rewrite <-app_assoc.
    + simpl. by rewrite Hlen.
    + lia.
    + intros _. apply Hlast. right.
      rewrite on_exception_event by done. by eexists.
    + by rewrite <-app_assoc.
    + intros count Hc. rewrite (Hcount count Hc).
      destruct Hc as [Hc Hsleep].
      rewrite world_on_exception, try_handler_world by done.
      rewrite Hcall. cbn [snd].
      specialize (Hc (set_attempts (Z.of_nat i + 1) (event_at s r))
                     (data (event_at s r)) (world s)).
      rewrite Hcall in Hc. cbn [snd] in Hc.
      case_bool_decide; rewrite ?Hsleep; lia.
Qed.

(** *** The loop over the handlers *)

Lemma run_handler_unfold r errors s h :
  run_handler r (errors, s) h =
    let res := run_attempts h r (range (max_retries (proc s))) errors s in
    (res.1.2, if res.1.1 then res.2 else failed_append r res.2).
Proof.
  unfold run_handler.
  by destruct (run_attempts h r _ errors s) as [[[] ?] ?].
Qed.

Lemma frame_failed_append r s : frame s (failed_append r s).
Proof. by constructor. Qed.

Lemma run_handler_frame r errors s h :
  frame s (run_handler r (errors, s) h).2.
Proof.
  rewrite run_handler_unfold. simpl.
  destruct (run_attempts_frame h r (range (max_retries (proc s))) errors s)
    as [Hf _].
  destruct (run_attempts h r _ errors s).1.1; [done|].
  eapply frame_trans; [apply Hf|apply frame_failed_append].
Qed.

Lemma run_handler_failed r errors s h :
  failed_events (proc (run_handler r (errors, s) h).2) =
    failed_events (proc s)
      ++ (if (run_attempts h r (range (max_retries (proc s))) errors s).1.1
          then [] else [r]).
Proof.
  rewrite run_handler_unfold. simpl.
  destruct (run_attempts_frame h r (range (max_retries (proc s))) errors s)
    as [_ Hd].
  destruct (run_attempts h r _ errors s).1.1; simpl.
  - by rewrite app_nil_r.
  - by rewrite Hd.
Qed.


Lemma handlers_loop_frame r hs errors s :
  frame s (foldl (run_handler r) (errors, s) hs).2 /\
  exists n, (n <= length hs)%nat /\
    failed_events (proc (foldl (run_handler r) (errors, s) hs).2)
      = failed_events (proc s) ++ replicate n r.
Proof.
  revert errors s. induction hs as [|h hs IH]; intros errors s; cbn [foldl].
  { split; [apply frame_refl|]. exists 0%nat. simpl. by rewrite app_nil_r. }
  pose proof (run_handler_frame r errors s h) as Hf1.
  pose proof (run_handler_failed r errors s h) as Hd1.
  destruct (run_handler r (errors, s) h) as [errors1 s1]. simpl in *.
  destruct (IH errors1 s1) as (Hf & n & Hn & Hd).
  split; [by eapply frame_trans|].
  rewrite Hd, Hd1, <-app_assoc.
  destruct (run_attempts h r _ errors s).1.1; simpl.
  - exists n. split; [lia|done].
  - exists (S n). split; [lia|done].
Qed.







(** *** [_process_event] *)

Lemma _process_event_ignored r s :
  default [] (handlers (proc s) !! type (event_at s r)) = [] ->
  _process_event r s = (Ignored (type (event_at s r)), log_append r s).
Proof. intros Hhs. unfold _process_event. by rewrite Hhs. Qed.

Lemma _process_event_handled r s hs :
  default [] (handlers (proc s) !! type (event_at s r)) = hs ->
  hs ≠ [] ->
  _process_event r s =
    (match (foldl (run_handler r) ([], s) hs).1 with
     | [] => Processed (id (event_at s r))
     | _ => PartialFailure (id (event_at s r))
              (foldl (run_handler r) ([], s) hs).1
     end,
     log_append r
       (assign r
          (set_processed_at
             (Some (time_time (world (foldl (run_handler r) ([], s) hs).2))))
          (foldl (run_handler r) ([], s) hs).2)).
Proof.
  intros Hhs Hne. unfold _process_event. rewrite Hhs.
  destruct hs as [|h hs]; [done|].
  destruct (foldl (run_handler r) ([], s) (h :: hs)) as [errors s1].
  by destruct errors.
Qed.

(** Whatever the handlers do, [_process_event] appends the event to the
    log, appends it to the dead-letter list some number of times, and
    otherwise only touches mutable attributes, the world and the trace. *)
Lemma _process_event_shape r s :
  exists s1 n,
    (_process_event r s).2 = log_append r s1 /\
    frame s s1 /\
    failed_events (proc s1) = failed_events (proc s) ++ replicate n r.
Proof.
  destruct (default [] (handlers (proc s) !! type (event_at s r)))
    as [|h hs] eqn:Hhs.
  - rewrite _process_event_ignored by done.
    exists s, 0%nat. simpl. by rewrite app_nil_r.
  - rewrite (_process_event_handled r s (h :: hs)) by done.
    destruct (handlers_loop_frame r (h :: hs) [] s) as (Hf & n & _ & Hd).
    eexists _, n. split; [done|]. split; [|by rewrite <-Hd].
    eapply frame_trans; [apply Hf|].
    apply frame_assign, envelope_set_processed_at.
Qed.

Lemma event_at_log_append r s r' :
  event_at (log_append r s) r' = event_at s r'.
Proof. done. Qed.

(** *** The invariant *)

Lemma wf_init secret mr rd (w : World) :
  wf {| proc := __init__ secret mr rd; world := w; trace := [] |}.
Proof. split; [constructor|done]. Qed.

Lemma wf_on event_type func s : wf s -> wf (on event_type func s).
Proof. done. Qed.

Lemma wf__process_event r s :
  Forall (fun r' => (r' < length (objects (proc s)))%nat)
         (event_log (proc s)) ->
  (r < length (objects (proc s)))%nat ->
  failed_events (proc s) ⊆ r :: event_log (proc s) ->
  wf (_process_event r s).2.
Proof.
  intros Hlog Hr Hsub.
  destruct (_process_event_shape r s) as (s1 & n & -> & Hf & Hd).
  split; simpl; rewrite (frame_event_log _ _ Hf).
  - rewrite (frame_length _ _ Hf). apply Forall_app. split; [done|].
    by apply Forall_singleton.
  - rewrite Hd. intros r' [Hin|Hin]%elem_of_app.
    + apply Hsub, elem_of_cons in Hin as [->|Hin]; set_solver.
    + apply elem_of_replicate in Hin as [-> _]. set_solver.
Qed.

Lemma wf_process request s : wf s -> wf (process request s).2.
Proof.
  intros [Hlog Hsub]. unfold process.
  destruct (verify_signature _ _ _) as [[]|]; [|done..].
  destruct (json_loads _); [|done].
  destruct (parse_event _) as [event|]; [|done].
  destruct (in_log _ _); [done|].
  simpl. destruct (_process_event _ _) as [res s'] eqn:Hrun.
  change s' with (res, s').2. rewrite <-Hrun.
  apply wf__process_event; simpl.
  - rewrite length_app. simpl. eapply Forall_impl; [apply Hlog|].
    simpl. lia.
  - rewrite length_app. simpl. lia.
  - set_solver.
Qed.

Lemma wf_retry_failed event_id s : wf s -> wf (retry_failed event_id s).2.
Proof.
  intros [Hlog Hsub]. unfold retry_failed.
  destruct (list_find _ _) as [[i r]|] eqn:Hfind; [|done].
  apply list_find_Some in Hfind as (Hi & _ & _).
  assert (r ∈ event_log (proc s)) as Hr
    by (by eapply Hsub, list_elem_of_lookup_2).
  apply wf__process_event; simpl; rewrite ?length_alter.
  - done.
  - by eapply Forall_forall in Hlog.
  - intros r' Hin%list_elem_of_delete_inv. set_solver.
Qed.

Lemma reachable_wf s : reachable s -> wf s.
Proof.
  induction 1; auto using wf_init, wf_on, wf_process, wf_retry_failed.
Qed.

(** *** Entering an event and looking ids up *)

Lemma in_log_true event_id s :
  in_log event_id s = true <->
  exists r, r ∈ event_log (proc s) /\ id (event_at s r) = event_id.
Proof.
  unfold in_log. rewrite existsb_exists. split.
  - intros (r & Hin & Heq). exists r.
    split; [by apply list_elem_of_In|by apply String.eqb_eq].
  - intros (r & Hin & Heq). exists r.
    split; [by apply list_elem_of_In|by apply String.eqb_eq].
Qed.

Lemma in_log_false event_id s r :
  in_log event_id s = false -> r ∈ event_log (proc s) ->
  id (event_at s r) ≠ event_id.
Proof.
  intros Hlog Hin Heq.
  assert (in_log event_id s = true) by (apply in_log_true; eauto).
  congruence.
Qed.

Lemma event_at_alloc_old event s r :
  (r < length (objects (proc s)))%nat ->
  event_at (alloc event s).2 r = event_at s r.
Proof. intros Hr. unfold event_at. simpl. by apply lookup_total_app_l. Qed.

Lemma event_at_alloc_new event s :
  event_at (alloc event s).2 (alloc event s).1 = event.
Proof. unfold event_at. simpl. apply list_lookup_total_middle. done. Qed.

Lemma alloc_fresh event s :
  ((alloc event s).1 < length (objects (proc (alloc event s).2)))%nat.
Proof. simpl. rewrite length_app. simpl. lia. Qed.

Lemma process_delivers request s event :
  delivers request s event ->
  process request s =
    if in_log (id event) s then (Return (Duplicate (id event)), s)
    else (Return (_process_event (alloc event s).1 (alloc event s).2).1,
          (_process_event (alloc event s).1 (alloc event s).2).2).
Proof.
  intros (Hsig & event_data & Hjson & Hparse).
  unfold process. rewrite Hsig, Hjson, Hparse.
  destruct (in_log (id event) s); [done|].
  simpl. by destruct (_process_event _ _).
Qed.

Lemma process_secret request s :
  webhook_secret (proc (process request s).2) = webhook_secret (proc s).
Proof.
  unfold process.
  destruct (verify_signature _ _ _) as [[]|]; [|done..].
  destruct (json_loads _); [|done].
  destruct (parse_event _) as [event|]; [|done].
  destruct (in_log _ _); [done|].
  simpl. destruct (_process_event _ _) as [res s'] eqn:Hrun.
  change s' with (res, s').2. rewrite <-Hrun.
  destruct (_process_event_shape (length (objects (proc s)))
              (alloc event s).2) as (s1 & n & Hs' & Hf & _).
  simpl in Hs'. rewrite Hs'. simpl. by rewrite (frame_secret _ _ Hf).
Qed.

(** Once a delivery has been processed, its id is in the log. *)
Lemma process_logs request s event :
  delivers request s event ->
  in_log (id event) (process request s).2 = true.
Proof.
  intros Hd. rewrite (process_delivers _ _ _ Hd).
  destruct (in_log (id event) s) eqn:Hlog; [done|]. cbn [snd].
  destruct (_process_event_shape (alloc event s).1 (alloc event s).2)
    as (s1 & n & -> & Hf & _).
  apply in_log_true. exists (alloc event s).1. split.
  - cbn [log_append with_proc proc event_log].
    rewrite (frame_event_log _ _ Hf). set_solver.
  - rewrite event_at_log_append, (frame_id _ _ _ Hf).
    by rewrite event_at_alloc_new.
Qed.


(** *** [_process_event] with a single handler *)

Lemma _process_event_id r s r' :
  id (event_at (_process_event r s).2 r') = id (event_at s r').
Proof.
  destruct (_process_event_shape r s) as (s1 & n & -> & Hf & _).
  by rewrite event_at_log_append, (frame_id _ _ _ Hf).
Qed.

Lemma _process_event_log r s :
  event_log (proc (_process_event r s).2) = event_log (proc s) ++ [r].
Proof.
  destruct (_process_event_shape r s) as (s1 & n & -> & Hf & _).
  simpl. by rewrite (frame_event_log _ _ Hf).
Qed.

Lemma _process_event_single r s h :
  handlers (proc s) !! type (event_at s r) = Some [h] ->
  _process_event r s =
    (match (run_handler r ([], s) h).1 with
     | [] => Processed (id (event_at s r))
     | _ => PartialFailure (id (event_at s r)) (run_handler r ([], s) h).1
     end,
     log_append r
       (assign r
          (set_processed_at
             (Some (time_time (world (run_handler r ([], s) h).2))))
          (run_handler r ([], s) h).2)).
Proof.
  intros Hhs. apply (_process_event_handled r s [h]); [by rewrite Hhs|done].
Qed.


Lemma _process_event_world_single r s h :
  handlers (proc s) !! type (event_at s r) = Some [h] ->
  world (_process_event r s).2
    = world (run_attempts h r (range (max_retries (proc s))) [] s).2.
Proof.
  intros Hhs. rewrite (_process_event_single r s h Hhs).
  rewrite run_handler_unfold. cbn zeta. cbn [snd].
  by destruct (run_attempts h r _ [] s).1.1.
Qed.

Lemma _process_event_succeeds_at k r s h :
  handlers (proc s) !! type (event_at s r) = Some [h] ->
  succeeds_at k h (event_at s r) s ->
  (r < length (objects (proc s)))%nat ->
  k <= max_retries (proc s) ->
  failed_events (proc (_process_event r s).2) = failed_events (proc s) /\
  (exists errors,
     Z.of_nat (length errors) = k - 1 /\
     (_process_event r s).1 =
       match errors with
       | [] => Processed (id (event_at s r))
       | _ => PartialFailure (id (event_at s r)) errors
       end) /\
  attempts (event_at (_process_event r s).2 r) = k /\
  (1 < k -> is_Some (last_error (event_at (_process_event r s).2 r))) /\
  invocations (trace (_process_event r s).2)
    = invocations (trace s)
        ++ ((fun a => Invoke (name h) (id (event_at s r)) (a + 1))
              <$> range k) /\
  (forall count,
     counts_calls count h ->
     count (world (_process_event r s).2) = count (world s) + k).
Proof.
  intros Hhs [Hk Hrun] Hr Hmr.
  destruct (run_attempts_fails_then_succeeds h r (Z.to_nat (k - 1)) 0
              (Z.to_nat (max_retries (proc s))) [] s Hrun Hr)
    as (new_errors & Hres & Hlen & Hatt & Hlast & Htrace & Hcount);
    [lia|lia|].
  fold (range (max_retries (proc s))) in Hres, Hatt, Hlast, Htrace, Hcount.
  rewrite (_process_event_world_single r s h Hhs).
  rewrite (_process_event_single r s h Hhs).
  rewrite run_handler_unfold. cbn zeta. cbn [fst snd].
  pose proof (run_attempts_frame h r
                (range (max_retries (proc s))) [] s) as [Hf Hfailed].
  rewrite Hres. cbn [fst snd app].
  rewrite event_at_log_append,
    event_at_assign_eq by by rewrite (frame_length _ _ Hf).
  cbn [log_append assign with_proc proc failed_events trace
       set_processed_at attempts last_error].
  replace (S (Z.to_nat (k - 1))) with (Z.to_nat k) in Htrace, Hcount by lia.
  split_and!.
  - done.
  - exists new_errors. split; [lia|done].
  - rewrite Hatt. lia.
  - intros Hgt. apply Hlast. left. lia.
  - done.
  - intros count Hc. rewrite (Hcount count Hc). lia.
Qed.

(** The dead-letter entries of an id after one more entry for it *)
Lemma filter_fresh_entry (P : nat -> Prop) `{!forall r, Decision (P r)}
    (l : list nat) (r : nat) :
  Forall (fun r' => ¬ P r') l -> P r -> filter P (l ++ [r]) = [r].
Proof.
  intros Hl Hr. induction Hl as [|r' l Hr' Hl IH]; simpl.
  - by rewrite filter_cons_True.
  - by rewrite filter_cons_False.
Qed.

(** *** Retry bound and dead-lettering *)


(** The default of [max_retries] is 3. *)
Lemma default_max_retries secret rd :
  max_retries (__init__ (World := World) secret None rd) = 3.
Proof. done. Qed.

(** C10.  When no dead-letter entry carries the id, [retry_failed] answers
    [not_found] and returns the state it was given: processor (dead-letter
    list, event log, event objects), world and trace are unchanged. *)
Theorem retry_failed_not_found event_id s :
  Forall (fun r => id (event_at s r) ≠ event_id) (failed_events (proc s)) ->
  retry_failed event_id s = (NotFound, s) /\
  status (retry_failed event_id s).1 = "not_found".
Proof.
  intros Hnone. unfold retry_failed.
  by rewrite (proj2 (list_find_None _ _) Hnone).
Qed.

(** *** Retry success *)

(** C2 (amended).  When the one handler registered for a newly delivered
    event's type fails on attempts 1 to [k-1] of the run and succeeds on
    attempt [k], with [k] at most [max_retries], the handler is called
    exactly [k] times (by the record of calls and by every observation of
    the world that counts them) and the event is not added to the
    dead-letter list.  The status is [processed] only when [k = 1]; for
    [k > 1] the [k-1] failed attempts are reported and the status is
    [partial_failure]. *)
Theorem handler_succeeding_on_retry request s event h k :
  delivers request s event ->
  in_log (id event) s = false ->
  handlers (proc s) !! type event = Some [h] ->
  succeeds_at k h event s ->
  k <= max_retries (proc s) ->
  failed_events (proc (process request s).2) = failed_events (proc s) /\
  invocations (trace (process request s).2)
    = invocations (trace s)
        ++ ((fun a => Invoke (name h) (id event) (a + 1)) <$> range k) /\
  (forall count,
     counts_calls count h ->
     count (world (process request s).2) = count (world s) + k) /\
  (k = 1 -> (process request s).1 = Return (Processed (id event))) /\
  (1 < k ->
   exists errors,
     Z.of_nat (length errors) = k - 1 /\
     (process request s).1 = Return (PartialFailure (id event) errors)).
Proof.
  intros Hd Hfresh Hhs Hk Hrange.
  rewrite (process_delivers _ _ _ Hd), Hfresh. cbn [fst snd].
  destruct (_process_event_succeeds_at k (alloc event s).1 (alloc event s).2 h)
    as (Hdl & (errors & Hlen & Hres) & _ & _ & Htrace & Hcount).
  { by rewrite event_at_alloc_new. }
  { by rewrite event_at_alloc_new. }
  { apply alloc_fresh. }
  { done. }
  rewrite event_at_alloc_new in Htrace, Hres.
  split_and!; [done|done|done| |].
  - intros ->. rewrite Hres. destruct errors; [done|simpl in Hlen; lia].
  - intros Hgt. exists errors. split; [done|]. rewrite Hres.
    destruct errors; [simpl in Hlen; lia|done].
Qed.

(** *** Dead-lettered events are deduplicated *)


(** *** Manual retry *)

(** The state in which [retry_failed] re-runs [_process_event]: the entry
    at index [i] is popped, [attempts] and [last_error] are reset. *)
Lemma retry_failed_found event_id s i r :
  list_find (fun r => id (event_at s r) = event_id) (failed_events (proc s))
    = Some (i, r) ->
  retry_failed event_id s =
    _process_event r
      (assign r (set_last_error None)
         (assign r (set_attempts 0) (failed_pop i s))).
Proof. intros Hfind. unfold retry_failed. by rewrite Hfind. Qed.

(** *** Logged ids stay logged *)







(** *** Registration order and containment of handler failures *)





End Facts.
End ProcessorFacts.

(** * Properties of the [EventRouter] and of the dispute handler *)
Module RouterFacts.
Import Events.

Section Facts.
Context `{!StripeLib} `{!Formatting}.
Implicit Types (self : EventRouter) (env : Env) (event : stripe.Event).

(** *** Verification failures *)

Lemma process_webhook_invalid_payload self payload signature msg env :
  construct_event payload signature (webhook_secret self)
    = Raise (ValueError msg) ->
  process_webhook self payload signature env
    = (Return (ErrorResponse "Invalid payload" 400), env).
Proof. intros Hc. unfold process_webhook. by rewrite Hc. Qed.

Lemma process_webhook_invalid_signature self payload signature msg env :
  construct_event payload signature (webhook_secret self)
    = Raise (SignatureVerificationError msg) ->
  process_webhook self payload signature env
    = (Return (ErrorResponse "Invalid signature" 401), env).
Proof. intros Hc. unfold process_webhook. by rewrite Hc. Qed.

(** *** The ledger *)

Lemma process_webhook_verified self payload signature event env :
  construct_event payload signature (webhook_secret self) = Return event ->
  process_webhook self payload signature env =
    if match cells (storage env) !! ("event:" +:+ stripe.id event) with
       | Some v => truthy v
       | None => false
       end
    then (Return (AlreadyProcessed (stripe.id event)), env)
    else match handlers self !! stripe.type event with
         | None => (Return (Unhandled (stripe.type event)), env)
         | Some handler =>
             run_handler handler event ("event:" +:+ stripe.id event) env
         end.
Proof.
  intros Hc. unfold process_webhook. rewrite Hc.
  unfold mbind, Eff_bind, storage_get, mret, Eff_ret.
  destruct (match cells (storage env) !! _ with Some _ => _ | None => _ end);
    [done|].
  by destruct (handlers self !! stripe.type event).
Qed.

Lemma log_failure_raises event e env :
  exists e', (log_failure (A := Response) event e env).1 = Raise e'.
Proof.
  unfold log_failure. destruct (storage_put _ _ env) as [[u|e'] env']; eauto.
Qed.

Lemma storage_put_cases key v env :
  (rejects (storage env) key = true /\
   exists e, storage_put key v env = (Raise e, record_effect (Put key v) env))
  \/
  (rejects (storage env) key = false /\
   exists env',
     storage_put key v env = (Return (), env') /\
     cells (storage env') = <[key := v]> (cells (storage env)) /\
     rejects (storage env') = rejects (storage env) /\
     email_sender env' = email_sender env /\
     now env' = now env /\
     journal env' = journal env ++ [Put key v]).
Proof.
  unfold storage_put. simpl. destruct (rejects (storage env) key).
  - left. split; [reflexivity|]. eexists. reflexivity.
  - right. split; [reflexivity|]. eexists.
    split; [reflexivity|]. simpl. repeat split.
Qed.



(** *** Registration *)

Lemma register_types_keep (handler : EventHandler) types
    (hs : gmap string EventHandler) key :
  hs !! key = Some handler ->
  foldl (fun hs event_type => <[value event_type := handler]> hs) hs types
    !! key = Some handler.
Proof.
  revert hs. induction types as [|t types IH]; intros hs Hk; [done|].
  simpl. apply IH. rewrite lookup_insert. by case_decide.
Qed.

Lemma register_types_lookup (handler : EventHandler) types
    (hs : gmap string EventHandler) event_type :
  event_type ∈ types ->
  foldl (fun hs event_type => <[value event_type := handler]> hs) hs types
    !! value event_type = Some handler.
Proof.
  revert hs. induction types as [|t types IH]; intros hs Hin.
  { by apply elem_of_nil in Hin. }
  simpl. apply elem_of_cons in Hin as [->|Hin]; [|by apply IH].
  apply register_types_keep, lookup_insert_eq.
Qed.


(** *** Disputes *)



(** *** The ledger keeps what it holds *)










End Facts.
End RouterFacts.

(** * The two pipelines side by side *)
Module PipelineFacts.

Section Facts.
Context {World : Type} `{!Runtime World} `{!StripeLib}.



(** C5 (amended).  [EventRouter.process_webhook] answers a malformed
    payload with [Invalid payload] and code 400, a bad signature with
    [Invalid signature] and code 401, and in both cases leaves the
    environment (storage included) untouched.
    [WebhookProcessor.process] does not tell the two apart: either makes
    it raise [HTTPException(400, "Invalid signature")], the processor
    being left untouched. *)
Theorem verification_failures_are_rejected_without_a_write :
  (forall (self : Events.EventRouter) payload signature env msg,
     (construct_event payload signature (Events.webhook_secret self)
        = Raise (ValueError msg) ->
      Events.process_webhook self payload signature env
        = (Return (Events.ErrorResponse "Invalid payload" 400), env)) /\
     (construct_event payload signature (Events.webhook_secret self)
        = Raise (SignatureVerificationError msg) ->
      Events.process_webhook self payload signature env
        = (Return (Events.ErrorResponse "Invalid signature" 401), env))) /\
  (forall (request : Webhooks.Request) (s : Webhooks.State World) msg,
     construct_event (Webhooks.body request)
         (default "" (Webhooks.headers request !! "Stripe-Signature"))
         (Webhooks.webhook_secret (Webhooks.proc s))
       = Raise (ValueError msg) \/
     construct_event (Webhooks.body request)
         (default "" (Webhooks.headers request !! "Stripe-Signature"))
         (Webhooks.webhook_secret (Webhooks.proc s))
       = Raise (SignatureVerificationError msg) ->
     Webhooks.process request s
       = (Raise (HTTPException 400 "Invalid signature"), s)).
Proof.
  split.
  - intros. split; intros.
    + by eapply RouterFacts.process_webhook_invalid_payload.
    + by eapply RouterFacts.process_webhook_invalid_signature.
  - intros request s msg Hc.
    unfold Webhooks.process, Webhooks.verify_signature.
    by destruct Hc as [-> | ->].
Qed.


End Facts.
End PipelineFacts.

(** * The statements on concrete runs *)
Module Examples.
Import Fixtures.

#[local] Existing Instance World_runtime.
#[local] Existing Instance Marks.World_runtime.
#[local] Existing Instance stub_stripe.
#[local] Existing Instance stub_formatting.


Lemma flaky_succeeds_at :
  Webhooks.succeeds_at 2 (flaky 2) evt_1 (registered [flaky 2] None).
Proof.
  split; [lia|]. eexists _, _. split; [reflexivity|]. eexists. reflexivity.
Qed.

(** A handler that simply returns succeeds on attempt 1. *)
Lemma fine_succeeds_at handler_name :
  Webhooks.succeeds_at 1 (fine handler_name) evt_1
    (registered [fine handler_name] None).
Proof. split; [lia|]. by eexists. Qed.



Lemma waiting_counts_calls handler_name ready :
  Webhooks.counts_calls Marks.count (Marks.waiting handler_name ready).
Proof.
  split; [|done]. intros event d w. unfold Marks.count. simpl.
  case_bool_decide; simpl; rewrite length_app; simpl; lia.
Qed.

(** With the default back-off of 60 seconds, a handler that waits for the
    clock to read 60 fails on attempt 1 and succeeds on attempt 2. *)
Lemma waiting_succeeds_at :
  Webhooks.succeeds_at 2 (Marks.waiting "notify" 60) evt_1
    (Marks.registered [Marks.waiting "notify" 60] None).
Proof.
  split; [lia|]. eexists _, _. split; [reflexivity|]. eexists. reflexivity.
Qed.

Lemma marked_registered_wf hs max_retries_ :
  Webhooks.wf (Marks.registered hs max_retries_).
Proof.
  unfold Marks.registered.
  generalize (ProcessorFacts.wf_init "whsec" max_retries_ None
                {| Marks.clock := 0; Marks.calls := [] |}).
  generalize ({| Webhooks.proc := Webhooks.__init__ "whsec" max_retries_ None;
                 Webhooks.world := {| Marks.clock := 0; Marks.calls := [] |};
                 Webhooks.trace := [] |}).
  induction hs as [|h hs IH]; intros s Hs; simpl; [done|].
  by apply IH, ProcessorFacts.wf_on.
Qed.

Lemma registered_wf hs max_retries_ : Webhooks.wf (registered hs max_retries_).
Proof.
  unfold registered. generalize (ProcessorFacts.wf_init "whsec" max_retries_
    None {| clock := 0; service_up := false |}).
  fold (start max_retries_). generalize (start max_retries_).
  induction hs as [|h hs IH]; intros s Hs; simpl; [done|].
  by apply IH, ProcessorFacts.wf_on.
Qed.

Lemma evt_1_delivers (s : Webhooks.State World) :
  Webhooks.webhook_secret (Webhooks.proc s) = "whsec" ->
  Webhooks.delivers (request "evt_1" "whsec") s evt_1.
Proof.
  intros Hsecret. split.
  - unfold Webhooks.verify_signature. by rewrite Hsecret.
  - eexists. split; reflexivity.
Qed.

Lemma marked_evt_1_delivers (s : Webhooks.State Marks.World) :
  Webhooks.webhook_secret (Webhooks.proc s) = "whsec" ->
  Webhooks.delivers (request "evt_1" "whsec") s evt_1.
Proof.
  intros Hsecret. split.
  - unfold Webhooks.verify_signature. by rewrite Hsecret.
  - eexists. split; reflexivity.
Qed.


(** C2: a handler that fails while what it depends on is not up succeeds
    on its second attempt of three, after the back-off. *)
Lemma handler_succeeding_on_retry_witness :
  Webhooks.succeeds_at 2 (Marks.waiting "notify" 60) evt_1
    (Marks.registered [Marks.waiting "notify" 60] None) /\
  Webhooks.counts_calls Marks.count (Marks.waiting "notify" 60) /\
  Webhooks.failed_events
    (Webhooks.proc
       (Marks.deliver (Marks.registered [Marks.waiting "notify" 60] None)).2)
    = [] /\
  Webhooks.invocations
    (Webhooks.trace
       (Marks.deliver (Marks.registered [Marks.waiting "notify" 60] None)).2)
    = [Webhooks.Invoke "notify" "evt_1" 1; Webhooks.Invoke "notify" "evt_1" 2]
  /\
  Marks.count
    (Webhooks.world
       (Marks.deliver (Marks.registered [Marks.waiting "notify" 60] None)).2)
    = 2 /\
  (exists errors,
     Z.of_nat (length errors) = 1 /\
     (Marks.deliver (Marks.registered [Marks.waiting "notify" 60] None)).1
       = Return (Webhooks.PartialFailure "evt_1" errors)).
Proof.
  destruct (ProcessorFacts.handler_succeeding_on_retry
              (request "evt_1" "whsec")
              (Marks.registered [Marks.waiting "notify" 60] None)
              evt_1 (Marks.waiting "notify" 60) 2)
    as (Hdead & Hcalls & Hcount & _ & Hlater).
  - by apply marked_evt_1_delivers.
  - reflexivity.
  - reflexivity.
  - apply waiting_succeeds_at.
  - by vm_compute.
  - split_and!;
      [apply waiting_succeeds_at|apply waiting_counts_calls|exact Hdead
      |exact Hcalls
      |exact (Hcount Marks.count (waiting_counts_calls "notify" 60))|].
    by apply Hlater.
Defined.

(** C2 as stated fails: the handler fails on attempt 1 and succeeds on
    attempt 2 of 3, the event is not dead-lettered, and yet the status is
    [partial_failure], not [processed]. *)
Lemma success_on_second_attempt_is_partial_failure :
  Webhooks.succeeds_at 2 (flaky 2) evt_1 (registered [flaky 2] None) /\
  Webhooks.max_retries (Webhooks.proc (registered [flaky 2] None)) = 3 /\
  Webhooks.invocations
    (Webhooks.trace (deliver (registered [flaky 2] None)).2)
    = [Webhooks.Invoke "flaky" "evt_1" 1; Webhooks.Invoke "flaky" "evt_1" 2] /\
  (deliver (registered [flaky 2] None)).1
    = Return (Webhooks.PartialFailure "evt_1" ["flaky: try again"]) /\
  Webhooks.status (Webhooks.PartialFailure "evt_1" ["flaky: try again"])
    ≠ "processed".
Proof. split; [apply flaky_succeeds_at|]. by vm_compute. Qed.


(** C10 on a processor whose dead-letter list is empty *)
Lemma retry_failed_not_found_witness :
  Webhooks.retry_failed "evt_1" (registered [fine "notify"] None)
    = (Webhooks.NotFound, registered [fine "notify"] None).
Proof.
  apply (ProcessorFacts.retry_failed_not_found "evt_1"
           (registered [fine "notify"] None)).
  constructor.
Defined.

(** C7 at a failing input: two handlers exhaust their retries while the
    service they need is down, so [failed_events] holds the event twice;
    after the service is back a manual retry succeeds with status
    [processed], pops one entry, and the event is still in the dead-letter
    list. *)
Lemma retried_event_stays_listed :
  Webhooks.dead_letter_entries "evt_1"
    (deliver (registered [needs_service "a"; needs_service "b"] None)).2
    = 2%nat /\
  (Webhooks.retry_failed "evt_1"
     (service_restored
        (deliver (registered [needs_service "a"; needs_service "b"] None)).2)).1
    = Webhooks.Processed "evt_1" /\
  Webhooks.id <$> Webhooks.get_failed_events
    (Webhooks.retry_failed "evt_1"
       (service_restored
          (deliver (registered [needs_service "a"; needs_service "b"]
                      None)).2)).2
    = ["evt_1"].
Proof. by vm_compute. Qed.







(** C5: a forged signature at both entry points *)
Lemma verification_failures_are_rejected_without_a_write_witness :
  route_forged (router [disputes]) env0
    = (Return (Events.ErrorResponse "Invalid signature" 401), env0) /\
  Webhooks.process (request "evt_1" "forged") (registered [fine "notify"] None)
    = (Raise (HTTPException 400 "Invalid signature"),
       registered [fine "notify"] None).
Proof.
  destruct (PipelineFacts.verification_failures_are_rejected_without_a_write
              (World := World)) as [Hrouter Hprocessor].
  split.
  - by apply (Hrouter (router [disputes]) "evt_1" "forged" env0 "no match").
  - apply (Hprocessor (request "evt_1" "forged")
             (registered [fine "notify"] None) "no match").
    by right.
Defined.

(** C5 as stated fails: [WebhookProcessor.process] answers a bad signature
    (the payload itself is well-formed) with 400, not 401. *)
Lemma processor_rejects_bad_signature_with_400 :
  construct_event "evt_1" "forged" "whsec"
    = Raise (SignatureVerificationError "no match") /\
  (Webhooks.process (request "evt_1" "forged")
     (registered [fine "notify"] None)).1
    = Raise (HTTPException 400 "Invalid signature").
Proof. split; reflexivity. Qed.



End Examples.

(** * Further properties of the [WebhookProcessor] *)
Module LedgerFacts.
Import Webhooks Reports.

Section Facts.
Context {World : Type} `{!Runtime World} `{!StripeLib}.
Implicit Types (s : State World) (h : Handler World) (r : nat).
Implicit Types (ev : WebhookEvent) (e : Exn) (errors : list string).

(** A call of [process] either leaves the state alone (rejected request or
    duplicate) or enters the delivered event and runs [_process_event]. *)
Lemma process_cases request s :
  (process request s).2 = s \/
  exists event,
    delivers request s event /\
    in_log (id event) s = false /\
    process request s
      = (Return (_process_event (alloc event s).1 (alloc event s).2).1,
         (_process_event (alloc event s).1 (alloc event s).2).2).
Proof.
  destruct (verify_signature (body request)
              (default "" (headers request !! "Stripe-Signature")) (proc s))
    as [[]|e] eqn:Hsig;
    [|left; unfold process; by rewrite Hsig..].
  destruct (json_loads (body request)) as [event_data|] eqn:Hjson;
    [|left; unfold process; by rewrite Hsig, Hjson].
  destruct (parse_event event_data) as [event|e] eqn:Hparse;
    [|left; unfold process; by rewrite Hsig, Hjson, Hparse].
  assert (delivers request s event) as Hd by (split; eauto).
  pose proof (ProcessorFacts.process_delivers _ _ _ Hd) as Hp.
  destruct (in_log (id event) s) eqn:Hlog; [left; by rewrite Hp|].
  right. by exists event.
Qed.

Lemma alloc_frame_ids event s r :
  (r < length (objects (proc s)))%nat ->
  id (event_at (alloc event s).2 r) = id (event_at s r).
Proof. intros. by rewrite ProcessorFacts.event_at_alloc_old. Qed.

(** Appending to the log an event that is in it already, or whose id is new,
    keeps the ids of the log unique. *)
Lemma unique_ids_log_append r s s1 :
  frame s s1 ->
  unique_ids s ->
  r ∈ event_log (proc s) \/
  (forall r', r' ∈ event_log (proc s) ->
     id (event_at s r') ≠ id (event_at s r)) ->
  unique_ids (log_append r s1).
Proof.
  intros Hf Huniq Hr r1 r2. simpl.
  rewrite (frame_event_log _ _ Hf), !ProcessorFacts.event_at_log_append.
  rewrite !(ProcessorFacts.frame_id _ _ _ Hf).
  intros [H1|H1%list_elem_of_singleton]%elem_of_app
         [H2|H2%list_elem_of_singleton]%elem_of_app Hid; subst.
  - by apply Huniq.
  - destruct Hr as [Hr|Hr]; [by apply Huniq|]. by apply Hr in Hid.
  - destruct Hr as [Hr|Hr]; [by apply Huniq|].
    symmetry in Hid. by apply Hr in Hid.
  - done.
Qed.

Lemma unique_ids__process_event r s :
  unique_ids s ->
  r ∈ event_log (proc s) \/
  (forall r', r' ∈ event_log (proc s) ->
     id (event_at s r') ≠ id (event_at s r)) ->
  unique_ids (_process_event r s).2.
Proof.
  intros Huniq Hr.
  destruct (ProcessorFacts._process_event_shape r s) as (s1 & n & -> & Hf & _).
  by eapply unique_ids_log_append.
Qed.

Lemma unique_ids_process request s :
  wf s -> unique_ids s -> unique_ids (process request s).2.
Proof.
  intros [Hlog _] Huniq.
  destruct (process_cases request s) as [->|(event & _ & Hfresh & ->)]; [done|].
  cbn [snd]. apply unique_ids__process_event.
  - intros r1 r2 H1 H2. simpl in H1, H2.
    rewrite !alloc_frame_ids by by eapply Forall_forall in Hlog.
    by apply Huniq.
  - right. intros r' Hr'. simpl in Hr'.
    rewrite ProcessorFacts.event_at_alloc_new.
    rewrite alloc_frame_ids by by eapply Forall_forall in Hlog.
    by apply ProcessorFacts.in_log_false.
Qed.

Lemma unique_ids_retry_failed event_id s :
  wf s -> unique_ids s -> unique_ids (retry_failed event_id s).2.
Proof.
  intros [Hlog Hsub] Huniq. unfold retry_failed.
  destruct (list_find _ _) as [[i r]|] eqn:Hfind; [|done].
  apply list_find_Some in Hfind as (Hi & _ & _).
  assert (r ∈ event_log (proc s)) as Hr
    by (by eapply Hsub, list_elem_of_lookup_2).
  apply unique_ids__process_event; [|by left].
  intros r1 r2 H1 H2. simpl in H1, H2.
  rewrite !ProcessorFacts.event_at_assign.
  repeat case_decide; simpl; destruct_and?; subst;
    rewrite ?ProcessorFacts.event_at_assign; repeat case_decide; simpl;
    by apply Huniq.
Qed.

(** X1.  From its construction on, through any sequence of registrations,
    deliveries and manual retries, the processor keeps its ledger
    consistent: every event the log refers to exists, every dead-letter
    entry is also in the event log, and no two event objects in the log
    carry the same id. *)
Theorem ledger_invariant s :
  reachable s ->
  Forall (fun r => (r < length (objects (proc s)))%nat) (event_log (proc s)) /\
  failed_events (proc s) ⊆ event_log (proc s) /\
  unique_ids s.
Proof.
  intros Hreach.
  cut (wf s /\ unique_ids s); [by intros [[? ?] ?]|].
  induction Hreach as [secret mr rd w|event_type func s _ [Hwf Hu]
                      |request s _ [Hwf Hu]|event_id s _ [Hwf Hu]].
  - split; [apply ProcessorFacts.wf_init|]. intros r1 r2 H1.
    by apply elem_of_nil in H1.
  - split; [by apply ProcessorFacts.wf_on|done].
  - split; [by apply ProcessorFacts.wf_process|by apply unique_ids_process].
  - split; [by apply ProcessorFacts.wf_retry_failed
           |by apply unique_ids_retry_failed].
Qed.

(** *** Looking events up *)

Lemma get_event_None event_id s :
  get_event event_id s = None <-> in_log event_id s = false.
Proof.
  unfold get_event. rewrite !fmap_None, list_find_None. split.
  - intros Hall. apply not_true_is_false. intros Hin.
    apply ProcessorFacts.in_log_true in Hin as (r & Hr & Hid).
    by eapply Forall_forall in Hall.
  - intros Hlog. apply Forall_forall. intros r Hr.
    by apply ProcessorFacts.in_log_false.
Qed.

Lemma get_event_Some event_id s ev :
  get_event event_id s = Some ev ->
  exists r, r ∈ event_log (proc s) /\ ev = event_at s r /\ id ev = event_id.
Proof.
  unfold get_event.
  intros (r & ([i r'] & Hfind & ->)%fmap_Some & ->)%fmap_Some.
  apply list_find_Some in Hfind as (Hi & Hid & _). simpl.
  exists r'. split; [by eapply list_elem_of_lookup_2|done].
Qed.

Lemma _process_event_not_duplicate r s event_id :
  (_process_event r s).1 ≠ Duplicate event_id.
Proof.
  unfold _process_event.
  destruct (default [] _) as [|h hs]; [done|].
  destruct (foldl _ _ _) as [errors s1]. by destruct errors.
Qed.

(** The event's reference once [process] has entered it *)
Lemma get_event_entered request s event :
  wf s ->
  delivers request s event ->
  in_log (id event) s = false ->
  get_event (id event) (process request s).2
    = Some (event_at (process request s).2 (length (objects (proc s)))).
Proof.
  intros [Hlog _] Hd Hfresh.
  destruct (get_event (id event) (process request s).2) as [ev|] eqn:Hget.
  2:{ apply get_event_None in Hget.
      by rewrite (ProcessorFacts.process_logs _ _ _ Hd) in Hget. }
  apply get_event_Some in Hget as (r & Hr & -> & Hid). f_equal. f_equal.
  rewrite (ProcessorFacts.process_delivers _ _ _ Hd), Hfresh in Hr, Hid.
  cbn [snd] in Hr, Hid.
  rewrite ProcessorFacts._process_event_log in Hr.
  rewrite ProcessorFacts._process_event_id in Hid.
  apply elem_of_app in Hr as [Hr|Hr%list_elem_of_singleton]; [|done].
  simpl in Hr. rewrite alloc_frame_ids in Hid
    by by eapply Forall_forall in Hlog.
  by apply (ProcessorFacts.in_log_false _ _ _ Hfresh) in Hid.
Qed.

(** X2.  [get_event] and the duplicate check of [process] agree:
    [get_event] finds nothing exactly for the ids that are not in the log,
    what it finds carries the id asked for, and a verified delivery is
    answered with [duplicate] exactly when [get_event] finds its id. *)
Theorem get_event_agrees_with_duplicate_check request s event :
  delivers request s event ->
  (get_event (id event) s = None <-> in_log (id event) s = false) /\
  (forall ev, get_event (id event) s = Some ev -> id ev = id event) /\
  ((process request s).1 = Return (Duplicate (id event)) <->
   is_Some (get_event (id event) s)).
Proof.
  intros Hd. split_and!.
  - apply get_event_None.
  - by intros ev (r & _ & _ & Hid)%get_event_Some.
  - rewrite (ProcessorFacts.process_delivers _ _ _ Hd).
    rewrite <-not_eq_None_Some, get_event_None.
    destruct (in_log (id event) s); cbn [fst].
    + split; [by intros _|done].
    + split; [|done]. intros [= Hres].
      by apply _process_event_not_duplicate in Hres.
Qed.

(** X3.  What [process] enters can be read back: after a new delivery
    [get_event] returns an event with the delivered id, type, data and
    creation time; its [processed_at] is set when handlers are registered
    for the type, and it is the event as constructed ([processed_at] unset,
    [attempts] 0, no [last_error]) when none is. *)
Theorem get_event_after_process request s event :
  wf s ->
  delivers request s event ->
  in_log (id event) s = false ->
  exists ev,
    get_event (id event) (process request s).2 = Some ev /\
    envelope ev = envelope event /\
    (default [] (handlers (proc s) !! type event) ≠ [] ->
     is_Some (processed_at ev)) /\
    (default [] (handlers (proc s) !! type event) = [] -> ev = event).
Proof.
  intros Hwf Hd Hfresh. eexists. split; [by apply get_event_entered|].
  rewrite (ProcessorFacts.process_delivers _ _ _ Hd), Hfresh. cbn [snd].
  change (length (objects (proc s))) with (alloc event s).1.
  split_and!.
  - destruct (ProcessorFacts._process_event_shape (alloc event s).1
                (alloc event s).2) as (s1 & n & -> & Hf & _).
    rewrite ProcessorFacts.event_at_log_append, (frame_envelope _ _ Hf).
    by rewrite ProcessorFacts.event_at_alloc_new.
  - intros Hhs.
    rewrite (ProcessorFacts._process_event_handled _ _
               (default [] (handlers (proc s) !! type event)));
      [|by rewrite ProcessorFacts.event_at_alloc_new|done].
    cbn [snd].
    rewrite ProcessorFacts.event_at_log_append,
      ProcessorFacts.event_at_assign_eq; [done|].
    destruct (ProcessorFacts.handlers_loop_frame (alloc event s).1
                (default [] (handlers (proc s) !! type event)) []
                (alloc event s).2) as [Hf _].
    rewrite (frame_length _ _ Hf). apply ProcessorFacts.alloc_fresh.
  - intros Hhs.
    rewrite ProcessorFacts._process_event_ignored
      by by rewrite ProcessorFacts.event_at_alloc_new.
    cbn [snd]. rewrite ProcessorFacts.event_at_log_append.
    apply ProcessorFacts.event_at_alloc_new.
Qed.

(** X4.  A new event of a type without handlers is acknowledged and logged,
    nothing else: [process] answers [ignored] with the event's type, appends
    the event as constructed to the log, calls no handler, sleeps not at all,
    leaves world and dead-letter list alone, and answers a later delivery
    of the id with [duplicate]. *)
Theorem event_without_handlers_is_only_logged request s event :
  delivers request s event ->
  in_log (id event) s = false ->
  default [] (handlers (proc s) !! type event) = [] ->
  (process request s).1 = Return (Ignored (type event)) /\
  status (Ignored (type event)) = "ignored" /\
  event_log (proc (process request s).2)
    = event_log (proc s) ++ [length (objects (proc s))] /\
  objects (proc (process request s).2) = objects (proc s) ++ [event] /\
  failed_events (proc (process request s).2) = failed_events (proc s) /\
  world (process request s).2 = world s /\
  trace (process request s).2 = trace s /\
  in_log (id event) (process request s).2 = true.
Proof.
  intros Hd Hfresh Hhs.
  split_and!; [..|by apply ProcessorFacts.process_logs]; try done;
    rewrite (ProcessorFacts.process_delivers _ _ _ Hd), Hfresh;
    rewrite ProcessorFacts._process_event_ignored
      by (by rewrite ProcessorFacts.event_at_alloc_new);
    by rewrite ?ProcessorFacts.event_at_alloc_new.
Qed.


(** *** Back-off *)





Lemma filter_all {A} (P : A -> Prop) `{!forall x, Decision (P x)}
    (l : list A) :
  Forall P l -> filter P l = l.
Proof.
  induction 1 as [|x l Hx Hl IH]; [done|].
  by rewrite filter_cons_True, IH.
Qed.

Lemma filter_range_but_last (n : Z) :
  filter (fun a => a < n - 1) (range n) = range (n - 1).
Proof.
  unfold range. destruct (Z.to_nat n) as [|m] eqn:Hn.
  { by replace (Z.to_nat (n - 1)) with 0%nat by lia. }
  replace (Z.to_nat (n - 1)) with m by lia.
  rewrite seq_S, fmap_app, filter_app. simpl.
  rewrite filter_cons_False, filter_nil, app_nil_r by lia.
  apply filter_all, Forall_fmap, Forall_forall.
  intros i Hi%elem_of_seq. simpl. lia.
Qed.


(** *** Degenerate retry bounds *)

Lemma range_nonpos (n : Z) : n <= 0 -> range n = [].
Proof. intros. unfold range. by replace (Z.to_nat n) with 0%nat by lia. Qed.

Lemma handlers_loop_no_attempts r hs errors s :
  max_retries (proc s) <= 0 ->
  (foldl (run_handler r) (errors, s) hs).1 = errors /\
  trace (foldl (run_handler r) (errors, s) hs).2 = trace s /\
  world (foldl (run_handler r) (errors, s) hs).2 = world s /\
  failed_events (proc (foldl (run_handler r) (errors, s) hs).2)
    = failed_events (proc s) ++ replicate (length hs) r.
Proof.
  revert s. induction hs as [|h hs IH]; intros s Hmr; cbn [foldl].
  { simpl. by rewrite app_nil_r. }
  rewrite ProcessorFacts.run_handler_unfold. cbn zeta.
  rewrite range_nonpos by done. cbn [run_attempts fst snd].
  destruct (IH (failed_append r s)) as (Herr & Htrace & Hworld & Hdead);
    [done|].
  rewrite Herr, Htrace, Hworld, Hdead. simpl.
  by rewrite <-app_assoc.
Qed.

(** X6.  With [max_retries] at most 0 no handler is ever called: a new
    event of a type with handlers is answered [processed], with no call and
    no sleep, and is nevertheless entered in the dead-letter list once per
    registered handler. *)
Theorem no_attempts_when_max_retries_is_not_positive request s event hs :
  delivers request s event ->
  in_log (id event) s = false ->
  handlers (proc s) !! type event = Some hs ->
  hs ≠ [] ->
  max_retries (proc s) <= 0 ->
  (process request s).1 = Return (Processed (id event)) /\
  trace (process request s).2 = trace s /\
  world (process request s).2 = world s /\
  failed_events (proc (process request s).2)
    = failed_events (proc s)
        ++ replicate (length hs) (length (objects (proc s))).
Proof.
  intros Hd Hfresh Hhs Hne Hmr.
  rewrite (ProcessorFacts.process_delivers _ _ _ Hd), Hfresh. cbn [fst snd].
  rewrite (ProcessorFacts._process_event_handled _ _ hs);
    [|by rewrite ProcessorFacts.event_at_alloc_new; simpl; rewrite Hhs|done].
  destruct (handlers_loop_no_attempts (alloc event s).1 hs []
              (alloc event s).2 Hmr) as (Herr & Htrace & Hworld & Hdead).
  cbn [fst snd log_append assign with_proc trace world proc failed_events].
  rewrite Herr, Htrace, Hworld, Hdead.
  by rewrite ProcessorFacts.event_at_alloc_new.
Qed.

(** *** One dead-letter entry per exhausted handler *)




(** *** Statistics *)

Lemma count_types_lookup s (l : list nat) (m : gmap string nat) t :
  foldl (count_type s) m l !! t =
    if decide (length (filter (fun r => type (event_at s r) = t) l) = 0%nat)
    then m !! t
    else Some (default 0%nat (m !! t)
               + length (filter (fun r => type (event_at s r) = t) l))%nat.
Proof.
  revert m. induction l as [|r l IH]; intros m; [done|].
  cbn [foldl]. rewrite IH, filter_cons. unfold count_type.
  destruct (decide (type (event_at s r) = t)) as [<-|Hne].
  - rewrite lookup_insert_eq. simpl.
    repeat case_decide; try lia; f_equal; lia.
  - by rewrite lookup_insert_ne.
Qed.

Lemma counted_count_type s (m : gmap string nat) r :
  counted (count_type s m r) = S (counted m).
Proof.
  unfold counted, count_type.
  assert (forall (m' : gmap string nat) (j1 j2 : string) (z1 z2 y : nat),
            j1 ≠ j2 -> m' !! j1 = Some z1 -> m' !! j2 = Some z2 ->
            (z1 + (z2 + y) = z2 + (z1 + y))%nat) as Hcomm by (intros; lia).
  destruct (m !! type (event_at s r)) as [n|] eqn:Hm; simpl.
  - rewrite <-insert_delete_eq.
    rewrite map_fold_insert_L; [|by eauto|by rewrite lookup_delete_eq].
    rewrite (map_fold_delete_L _ _ (type (event_at s r)) n m);
      [|by eauto|done].
    lia.
  - by rewrite map_fold_insert_L; [|by eauto|done].
Qed.

Lemma counted_count_types s (l : list nat) (m : gmap string nat) :
  counted (foldl (count_type s) m l) = (counted m + length l)%nat.
Proof.
  revert m. induction l as [|r l IH]; intros m; simpl; [lia|].
  rewrite IH, counted_count_type. lia.
Qed.

Lemma type_count_stats s t : type_count (stats s) t = logged_of_type t s.
Proof.
  unfold type_count, stats, logged_of_type. simpl.
  rewrite count_types_lookup, lookup_empty. by case_decide.
Qed.

(** X8.  [stats] counts the log by type: for every type the count it
    reports ([by_type.get(type, 0)]) is the number of log entries of that
    type, a type is a key of [by_type] exactly when the log holds an event of
    it, and the counts add up to [total_processed]. *)
Theorem stats_counts_the_log_by_type s :
  (forall t, type_count (stats s) t = logged_of_type t s) /\
  (forall t, by_type (stats s) !! t = None <-> logged_of_type t s = 0%nat) /\
  counted (by_type (stats s)) = total_processed (stats s).
Proof.
  split_and!.
  - apply type_count_stats.
  - intros t. unfold stats, logged_of_type. simpl.
    rewrite count_types_lookup, lookup_empty. by case_decide.
  - unfold stats. simpl. by rewrite counted_count_types.
Qed.

Lemma _process_event_type r s r' :
  type (event_at (_process_event r s).2 r') = type (event_at s r').
Proof.
  destruct (ProcessorFacts._process_event_shape r s) as (s1 & n & -> & Hf & _).
  by rewrite ProcessorFacts.event_at_log_append,
    (ProcessorFacts.frame_type _ _ _ Hf).
Qed.

Lemma _process_event_handlers r s :
  handlers (proc (_process_event r s).2) = handlers (proc s).
Proof.
  destruct (ProcessorFacts._process_event_shape r s) as (s1 & n & -> & Hf & _).
  simpl. by rewrite (frame_handlers _ _ Hf).
Qed.

Lemma logged_of_type__process_event t r s :
  logged_of_type t (_process_event r s).2
    = (logged_of_type t s
       + (if decide (type (event_at s r) = t) then 1 else 0))%nat.
Proof.
  unfold logged_of_type.
  rewrite ProcessorFacts._process_event_log, filter_app, length_app.
  rewrite filter_singleton, _process_event_type; [|exact []].
  f_equal.
  - f_equal. apply list_filter_iff. intros r'.
    by rewrite _process_event_type.
  - by case_decide.
Qed.

Lemma filter_ext_elem {A} (P Q : A -> Prop) `{!forall x, Decision (P x)}
    `{!forall x, Decision (Q x)} (l : list A) :
  (forall x, x ∈ l -> P x <-> Q x) -> filter P l = filter Q l.
Proof.
  induction l as [|x l IH]; intros Hext; [done|].
  rewrite !filter_cons, IH by (intros y Hy; apply Hext; by right).
  destruct (Hext x) as [HPQ HQP]; [by left|].
  repeat case_decide; try done; by intuition.
Qed.

Lemma logged_of_type_alloc t event s :
  wf s -> logged_of_type t (alloc event s).2 = logged_of_type t s.
Proof.
  intros [Hlog _]. unfold logged_of_type. f_equal.
  apply filter_ext_elem. intros r Hr. simpl in Hr.
  rewrite ProcessorFacts.event_at_alloc_old; [done|].
  by eapply Forall_forall in Hlog.
Qed.

(** X9.  [process] counts each new event once, whatever its handlers do:
    a new verified delivery raises [total_processed] by one and the count
    of its type by one, and leaves the other counts and
    [handlers_registered] as they are; the delivery of an event that is in
    the log already leaves the processor, and so its statistics,
    unchanged. *)
Theorem process_counts_each_new_event_once request s event :
  wf s ->
  delivers request s event ->
  (in_log (id event) s = false ->
   total_processed (stats (process request s).2)
     = S (total_processed (stats s)) /\
   handlers_registered (stats (process request s).2)
     = handlers_registered (stats s) /\
   forall t,
     type_count (stats (process request s).2) t
       = (type_count (stats s) t
          + (if decide (type event = t) then 1 else 0))%nat) /\
  (in_log (id event) s = true ->
   (process request s).2 = s /\
   stats (process request s).2 = stats s).
Proof.
  intros Hwf Hd. split.
  - intros Hfresh.
    rewrite (ProcessorFacts.process_delivers _ _ _ Hd), Hfresh. cbn [snd].
    split_and!.
    + simpl. rewrite ProcessorFacts._process_event_log, length_app.
      simpl. lia.
    + simpl. by rewrite _process_event_handlers.
    + intros t.
      rewrite !type_count_stats,
        logged_of_type__process_event.
      by rewrite ProcessorFacts.event_at_alloc_new,
        logged_of_type_alloc.
  - intros Hdup.
    by rewrite (ProcessorFacts.process_delivers _ _ _ Hd), Hdup.
Qed.

(** X10.  A manual retry logs the retried event a second time: the popped
    entry is an event of the log already, [retry_failed] appends that same
    event object to the log again and creates no new one, so
    [total_processed] and the count of the event's type each go up by one
    for an event that was counted before. *)
Theorem manual_retry_logs_the_event_again event_id s i r :
  wf s ->
  list_find (fun r => id (event_at s r) = event_id) (failed_events (proc s))
    = Some (i, r) ->
  r ∈ event_log (proc s) /\
  event_log (proc (retry_failed event_id s).2) = event_log (proc s) ++ [r] /\
  length (objects (proc (retry_failed event_id s).2))
    = length (objects (proc s)) /\
  total_processed (stats (retry_failed event_id s).2)
    = S (total_processed (stats s)) /\
  type_count (stats (retry_failed event_id s).2) (type (event_at s r))
    = S (type_count (stats s) (type (event_at s r))).
Proof.
  intros [Hlog Hsub] Hfind.
  pose proof Hfind as (Hi & _ & _)%list_find_Some.
  assert (r ∈ event_log (proc s)) as Hr
    by (by eapply Hsub, list_elem_of_lookup_2).
  rewrite (ProcessorFacts.retry_failed_found _ _ _ _ Hfind).
  set (s0 := assign r (set_last_error None)
               (assign r (set_attempts 0) (failed_pop i s))).
  assert (frame s s0) as Hf.
  { eapply ProcessorFacts.frame_trans;
      [|apply ProcessorFacts.frame_assign,
          ProcessorFacts.envelope_set_last_error].
    eapply ProcessorFacts.frame_trans;
      [|apply ProcessorFacts.frame_assign,
          ProcessorFacts.envelope_set_attempts].
    by constructor. }
  assert (forall t, logged_of_type t s0 = logged_of_type t s) as Hsame.
  { intros t. unfold logged_of_type. rewrite (frame_event_log _ _ Hf).
    f_equal. apply list_filter_iff. intros r'.
    by rewrite (ProcessorFacts.frame_type _ _ _ Hf). }
  split_and!.
  - done.
  - by rewrite ProcessorFacts._process_event_log, (frame_event_log _ _ Hf).
  - destruct (ProcessorFacts._process_event_shape r s0)
      as (s1 & n & -> & Hf1 & _).
    simpl. by rewrite (frame_length _ _ Hf1), (frame_length _ _ Hf).
  - simpl. rewrite ProcessorFacts._process_event_log, length_app.
    rewrite (frame_event_log _ _ Hf). simpl. lia.
  - rewrite !type_count_stats, logged_of_type__process_event, Hsame.
    rewrite (ProcessorFacts.frame_type _ _ _ Hf).
    rewrite decide_True by done. lia.
Qed.

(** *** What a retried event remembers *)

Lemma on_exception_last_error h r a e errors s :
  (r < length (objects (proc s)))%nat ->
  last_error (event_at (on_exception h r a e errors s).2 r) = Some (str e).
Proof.
  intros Hr. unfold event_at. rewrite ProcessorFacts.on_exception_proc.
  fold (event_at (assign r (set_last_error (Some (str e))) s) r).
  by rewrite ProcessorFacts.event_at_assign_eq.
Qed.

(** X11.  Success on a retry does not clear the error: when the handler of
    a new event fails on attempts 1 to [k-1] of the run and succeeds on
    attempt [k], with [k] greater than 1 and at most [max_retries], the
    logged event that [get_event] returns has [attempts] equal to [k],
    [processed_at] set, and [last_error] still set. *)
Theorem successful_retry_keeps_last_error request s event h k :
  wf s ->
  delivers request s event ->
  in_log (id event) s = false ->
  handlers (proc s) !! type event = Some [h] ->
  succeeds_at k h event s ->
  1 < k <= max_retries (proc s) ->
  exists ev,
    get_event (id event) (process request s).2 = Some ev /\
    attempts ev = k /\
    is_Some (last_error ev) /\
    is_Some (processed_at ev).
Proof.
  intros Hwf Hd Hfresh Hhs Hk Hrange.
  eexists. split; [by apply get_event_entered|].
  rewrite (ProcessorFacts.process_delivers _ _ _ Hd), Hfresh. cbn [snd].
  change (length (objects (proc s))) with (alloc event s).1.
  assert (handlers (proc (alloc event s).2)
            !! type (event_at (alloc event s).2 (alloc event s).1) = Some [h])
    as Hhs' by (by rewrite ProcessorFacts.event_at_alloc_new).
  destruct (ProcessorFacts._process_event_succeeds_at k (alloc event s).1 (alloc event s).2 h
              Hhs')
    as (_ & _ & Hatt & Hlast & _).
  { by rewrite ProcessorFacts.event_at_alloc_new. }
  { apply ProcessorFacts.alloc_fresh. }
  { change (max_retries (proc (alloc event s).2))
      with (max_retries (proc s)). lia. }
  split_and!; [done|apply Hlast; lia|].
  rewrite (ProcessorFacts._process_event_single _ _ h Hhs'). cbn [snd].
  pose proof (ProcessorFacts.run_handler_frame (alloc event s).1 []
                (alloc event s).2 h) as Hf.
  rewrite ProcessorFacts.event_at_log_append,
    ProcessorFacts.event_at_assign_eq
    by (rewrite (frame_length _ _ Hf); apply ProcessorFacts.alloc_fresh).
  done.
Qed.

End Facts.
End LedgerFacts.

(** * Further properties of the [EventRouter] and of the dispute handler *)
Module RoutingFacts.
Import Events.

Section Facts.
Context `{!StripeLib} `{!Formatting}.
Implicit Types (self : EventRouter) (env : Env) (event : stripe.Event).

(** When the [try] block returns, it returns [processed]. *)
Lemma run_handler_response handler event env response :
  (run_handler handler event ("event:" +:+ stripe.id event) env).1
    = Return response ->
  exists result, response = Processed (stripe.id event) result.
Proof.
  unfold run_handler.
  destruct (handle handler event _) as [[result|e] env1].
  - destruct (RouterFacts.storage_put_cases ("event:" +:+ stripe.id event)
                (processed_entry event (now env1) result) env1)
      as [[_ [e ->]]|[_ (env2 & -> & _)]].
    + intros Hret.
      by destruct (RouterFacts.log_failure_raises event e
                     (record_effect
                        (Put ("event:" +:+ stripe.id event)
                           (processed_entry event (now env1) result)) env1))
        as [e' He']; rewrite He' in Hret.
    + intros [= <-]. eauto.
  - intros Hret.
    by destruct (RouterFacts.log_failure_raises event e env1) as [e' He'];
      rewrite He' in Hret.
Qed.

(** X12.  An event of a type without handler is acknowledged and leaves no
    trace: [process_webhook] answers [unhandled] with the type and writes
    nothing, so that a later delivery of the same event is answered
    [unhandled] again, never [already_processed]. *)
Theorem unhandled_event_leaves_no_ledger_entry self payload1 signature1
    payload2 signature2 event1 event2 env :
  construct_event payload1 signature1 (webhook_secret self) = Return event1 ->
  construct_event payload2 signature2 (webhook_secret self) = Return event2 ->
  stripe.id event2 = stripe.id event1 ->
  stripe.type event2 = stripe.type event1 ->
  cells (storage env) !! ("event:" +:+ stripe.id event1) = None ->
  handlers self !! stripe.type event1 = None ->
  process_webhook self payload1 signature1 env
    = (Return (Unhandled (stripe.type event1)), env) /\
  status (Unhandled (stripe.type event1)) = JStr "unhandled" /\
  process_webhook self payload2 signature2
      (process_webhook self payload1 signature1 env).2
    = (Return (Unhandled (stripe.type event1)), env).
Proof.
  intros Hc1 Hc2 Hid Htype Hnew Hnone.
  assert (process_webhook self payload1 signature1 env
          = (Return (Unhandled (stripe.type event1)), env)) as Hfirst.
  { by rewrite (RouterFacts.process_webhook_verified _ _ _ _ env Hc1),
      Hnew, Hnone. }
  split_and!; [done|done|]. rewrite Hfirst. cbn [snd].
  by rewrite (RouterFacts.process_webhook_verified _ _ _ _ env Hc2),
    Hid, Htype, Hnew, Hnone.
Qed.

(** X13.  The duplicate check of the router is a truthiness test on the
    stored value: a verified delivery is answered [already_processed]
    exactly when storage holds a truthy value under [event:<id>], and then
    nothing is changed; an entry that is present but falsy (null, an empty
    dictionary, 0, an empty string) does not stop processing. *)
Theorem already_processed_iff_truthy_ledger_entry self payload signature
    event env :
  construct_event payload signature (webhook_secret self) = Return event ->
  ((process_webhook self payload signature env).1
     = Return (AlreadyProcessed (stripe.id event)) <->
   exists v,
     cells (storage env) !! ("event:" +:+ stripe.id event) = Some v /\
     truthy v = true) /\
  ((process_webhook self payload signature env).1
     = Return (AlreadyProcessed (stripe.id event)) ->
   (process_webhook self payload signature env).2 = env).
Proof.
  intros Hc. rewrite (RouterFacts.process_webhook_verified _ _ _ _ env Hc).
  destruct (cells (storage env) !! ("event:" +:+ stripe.id event))
    as [v|] eqn:Hcell.
  - destruct (truthy v) eqn:Hv; cbn [fst snd].
    + split; [|done]. split; [eauto|done].
    + assert ((match handlers self !! stripe.type event with
               | Some handler =>
                   run_handler handler event
                     ("event:" +:+ stripe.id event) env
               | None => (Return (Unhandled (stripe.type event)), env)
               end).1 ≠ Return (AlreadyProcessed (stripe.id event))) as Hne.
      { destruct (handlers self !! stripe.type event) as [handler|];
          [|done].
        intros (result & [=])%run_handler_response. }
      split; [|done]. split; [done|]. intros (v' & [= <-] & Hv').
      congruence.
  - assert ((match handlers self !! stripe.type event with
             | Some handler =>
                 run_handler handler event
                   ("event:" +:+ stripe.id event) env
             | None => (Return (Unhandled (stripe.type event)), env)
             end).1 ≠ Return (AlreadyProcessed (stripe.id event))) as Hne.
    { destruct (handlers self !! stripe.type event) as [handler|];
        [|done].
      intros (result & [=])%run_handler_response. }
    split; [|done]. split; [done|]. by intros (v' & [=] & _).
Qed.

(** *** Failure records *)

Lemma log_failure_cases {A} event e env :
  (rejects (storage env) ("failed:" +:+ stripe.id event) = true /\
   exists e',
     log_failure (A := A) event e env
       = (Raise e',
          record_effect
            (Put ("failed:" +:+ stripe.id event)
                 (failed_entry event (now env) e)) env)) \/
  (rejects (storage env) ("failed:" +:+ stripe.id event) = false /\
   exists env',
     log_failure (A := A) event e env = (Raise e, env') /\
     cells (storage env')
       = <["failed:" +:+ stripe.id event := failed_entry event (now env) e]>
           (cells (storage env))).
Proof.
  unfold log_failure.
  destruct (RouterFacts.storage_put_cases ("failed:" +:+ stripe.id event)
              (failed_entry event (now env) e) env)
    as [[Hrej [e' ->]]|[Hacc (env' & -> & Hcells & _)]].
  - left. split; [done|]. by exists e'.
  - right. split; [done|]. exists env'. by split.
Qed.

Lemma failed_key_is_not_event_key (event_id : string) :
  "failed:" +:+ event_id ≠ "event:" +:+ event_id.
Proof. cbn [String.append]. intros Heq. discriminate Heq. Qed.

(** X14.  When the handler raises, the router records the failure and
    passes the handler's own exception on: with a storage that accepts the
    write, [process_webhook] raises that exception and stores under
    [failed:<id>] the event's id and type, the exception's message and the
    time, and writes no [event:<id>] entry; when the storage rejects that
    write too, the storage's exception is raised instead and nothing is
    stored. *)
Theorem handler_failure_is_recorded_and_reraised self payload signature
    event handler env e env1 :
  construct_event payload signature (webhook_secret self) = Return event ->
  cells (storage env) !! ("event:" +:+ stripe.id event) = None ->
  handlers self !! stripe.type event = Some handler ->
  handle handler event (record_effect (Handle (stripe.id event)) env)
    = (Raise e, env1) ->
  (rejects (storage env1) ("failed:" +:+ stripe.id event) = false ->
   (process_webhook self payload signature env).1 = Raise e /\
   cells (storage (process_webhook self payload signature env).2)
     = <["failed:" +:+ stripe.id event := failed_entry event (now env1) e]>
         (cells (storage env1)) /\
   cells (storage (process_webhook self payload signature env).2)
     !! ("event:" +:+ stripe.id event)
     = cells (storage env1) !! ("event:" +:+ stripe.id event)) /\
  (rejects (storage env1) ("failed:" +:+ stripe.id event) = true ->
   (exists e', (process_webhook self payload signature env).1 = Raise e') /\
   cells (storage (process_webhook self payload signature env).2)
     = cells (storage env1)).
Proof.
  intros Hc Hnew Hh Hraise.
  rewrite (RouterFacts.process_webhook_verified _ _ _ _ env Hc), Hnew, Hh.
  unfold run_handler. rewrite Hraise.
  destruct (log_failure_cases (A := Response) event e env1)
    as [[Hrej [e' ->]]|[Hacc (env' & -> & Hcells)]].
  - split; [by rewrite Hrej|]. intros _. split; [by eauto|done].
  - split; [|by rewrite Hacc]. intros _. cbn [fst snd].
    split_and!; [done|done|].
    rewrite Hcells.
    apply lookup_insert_ne, failed_key_is_not_event_key.
Qed.

(** X15.  A ledger write that fails after the handler has returned is
    treated like a handler failure: [process_webhook] raises the storage's
    exception although the handler ran to completion, records the failure
    under [failed:<id>] when that write is accepted, and leaves no
    [event:<id>] entry, so the event is not recognised on redelivery. *)
Theorem ledger_write_failure_is_raised_after_the_handler_ran self payload
    signature event handler env result env1 :
  construct_event payload signature (webhook_secret self) = Return event ->
  cells (storage env) !! ("event:" +:+ stripe.id event) = None ->
  handlers self !! stripe.type event = Some handler ->
  handle handler event (record_effect (Handle (stripe.id event)) env)
    = (Return result, env1) ->
  rejects (storage env1) ("event:" +:+ stripe.id event) = true ->
  rejects (storage env1) ("failed:" +:+ stripe.id event) = false ->
  exists e,
    (process_webhook self payload signature env).1 = Raise e /\
    cells (storage (process_webhook self payload signature env).2)
      = <["failed:" +:+ stripe.id event := failed_entry event (now env1) e]>
          (cells (storage env1)) /\
    cells (storage (process_webhook self payload signature env).2)
      !! ("event:" +:+ stripe.id event)
      = cells (storage env1) !! ("event:" +:+ stripe.id event).
Proof.
  intros Hc Hnew Hh Hret Hrej Hacc.
  rewrite (RouterFacts.process_webhook_verified _ _ _ _ env Hc), Hnew, Hh.
  unfold run_handler. rewrite Hret.
  destruct (RouterFacts.storage_put_cases ("event:" +:+ stripe.id event)
              (processed_entry event (now env1) result) env1)
    as [[_ [e ->]]|[Hacc' _]]; [|congruence].
  exists e.
  destruct (log_failure_cases (A := Response) event e
              (record_effect
                 (Put ("event:" +:+ stripe.id event)
                    (processed_entry event (now env1) result)) env1))
    as [[Hrej' _]|[_ (env' & -> & Hcells)]]; [simpl in Hrej'; congruence|].
  cbn [fst snd]. split_and!; [done|done|].
  rewrite Hcells. simpl.
  apply lookup_insert_ne, failed_key_is_not_event_key.
Qed.

(** *** Registration *)

Lemma register_types_other (handler : EventHandler) types
    (hs : gmap string EventHandler) key :
  (forall event_type, event_type ∈ types -> value event_type ≠ key) ->
  foldl (fun hs event_type => <[value event_type := handler]> hs) hs types
    !! key = hs !! key.
Proof.
  revert hs. induction types as [|t types IH]; intros hs Hother; [done|].
  simpl. rewrite IH by (intros t' Ht'; apply Hother; by right).
  apply lookup_insert_ne, Hother. by left.
Qed.

(** X16.  [register_handler] routes exactly the handler's own event types
    to it: afterwards each type in its [event_types] is looked up to the
    handler, and every other key of the registry is as before. *)
Theorem register_handler_routes_its_types_only self (handler : EventHandler) :
  (forall event_type,
     event_type ∈ event_types handler ->
     handlers (register_handler handler self) !! value event_type
       = Some handler) /\
  (forall key,
     (forall event_type,
        event_type ∈ event_types handler -> value event_type ≠ key) ->
     handlers (register_handler handler self) !! key
       = handlers self !! key) /\
  webhook_secret (register_handler handler self) = webhook_secret self.
Proof.
  split_and!; [| |done].
  - intros event_type Hin. simpl.
    by apply RouterFacts.register_types_lookup.
  - intros key Hother. simpl. by apply register_types_other.
Qed.

End Facts.
End RoutingFacts.


(** * Further properties of the dispute handler *)
Module DisputeFacts.
Import Events.

Section Facts.
Context `{!Formatting}.
Implicit Types (self : DisputeEventHandler) (env : Env).

(** What [_handle_created] does when storage and email sender accept: the
    alert depends on the dispute alone. *)
Lemma _handle_created_accepted self (dispute : stripe.Dispute) :
  exists alert,
    to alert = "admin@example.com" /\
    forall env,
      rejects (storage env) ("dispute:" +:+ stripe.dispute_id dispute)
        = false ->
      notifications self = false \/ down (email_sender env) = false ->
      (_handle_created self dispute env).1
        = Return (JDict [("handled", JBool true);
                         ("action", JStr "dispute_alert_sent")]) /\
      cells (storage (_handle_created self dispute env).2)
        = <["dispute:" +:+ stripe.dispute_id dispute
              := dispute_record dispute (now env)]> (cells (storage env)) /\
      rejects (storage (_handle_created self dispute env).2)
        = rejects (storage env) /\
      now (_handle_created self dispute env).2 = now env /\
      down (email_sender (_handle_created self dispute env).2)
        = down (email_sender env) /\
      outbox (email_sender (_handle_created self dispute env).2)
        = outbox (email_sender env)
            ++ (if notifications self then [alert] else []).
Proof.
  eexists {| to := "admin@example.com"; subject := _; template := _;
             email_data := _ |}.
  split; [done|]. intros env Hacc Hmail.
  unfold _handle_created, mbind, Eff_bind.
  destruct (RouterFacts.storage_put_cases
              ("dispute:" +:+ stripe.dispute_id dispute)
              (dispute_record dispute (now env)) env)
    as [[Hrej _]|[_ (env1 & -> & Hcells & Hrejects & Hsender & Hnow & _)]];
    [congruence|].
  destruct (notifications self) eqn:Hn; simpl.
  - destruct Hmail as [?|Hup]; [done|].
    unfold send_admin_alert, send. simpl. rewrite Hsender, Hup. simpl.
    by split_and!.
  - rewrite Hsender, app_nil_r. by split_and!.
Qed.

Lemma dispute_handle_created self (event : stripe.Event)
    (dispute : stripe.Dispute) env :
  stripe.type event = value CHARGE_DISPUTE_CREATED ->
  stripe.object event = stripe.DisputeObject dispute ->
  handle (dispute_event_handler self) event env
    = _handle_created self dispute env.
Proof.
  intros Htype Hobject. simpl. unfold dispute_handle.
  by rewrite Htype, Hobject.
Qed.

Lemma dispute_handle_closed self (event : stripe.Event)
    (dispute : stripe.Dispute) env :
  stripe.type event = value CHARGE_DISPUTE_CLOSED ->
  stripe.object event = stripe.DisputeObject dispute ->
  handle (dispute_event_handler self) event env
    = _handle_closed self dispute env.
Proof.
  intros Htype Hobject. simpl. unfold dispute_handle.
  by rewrite Htype, Hobject.
Qed.

(** X17.  Closing a dispute replaces its record.  After the handler has
    handled a [charge.dispute.created] event, the value under
    [dispute:<id>] holds the charge, amount, reason, status, creation time
    and evidence date of the dispute; after it has then handled, at a later
    reading of the clock, the [charge.dispute.closed] event of the same
    dispute, the value holds the closing status and that later time, and
    nothing else. *)
Theorem closing_a_dispute_replaces_its_record (self : DisputeEventHandler)
    (created closed : stripe.Event) (dispute dispute' : stripe.Dispute)
    env (clock : Z) :
  stripe.type created = value CHARGE_DISPUTE_CREATED ->
  stripe.object created = stripe.DisputeObject dispute ->
  stripe.type closed = value CHARGE_DISPUTE_CLOSED ->
  stripe.object closed = stripe.DisputeObject dispute' ->
  stripe.dispute_id dispute' = stripe.dispute_id dispute ->
  rejects (storage env) ("dispute:" +:+ stripe.dispute_id dispute) = false ->
  notifications self = false \/ down (email_sender env) = false ->
  let env1 := (handle (dispute_event_handler self) created env).2 in
  let run2 := handle (dispute_event_handler self) closed (at_time clock env1) in
  cells (storage env1) !! ("dispute:" +:+ stripe.dispute_id dispute)
    = Some (JDict [("charge_id", JStr (stripe.charge dispute));
                   ("amount", JInt (stripe.amount dispute));
                   ("reason", JStr (stripe.reason dispute));
                   ("status", JStr (stripe.dispute_status dispute));
                   ("created_at", JStr (isoformat (now env)));
                   ("evidence_due_by",
                    match stripe.evidence_details dispute with
                    | Some details => JInt (stripe.due_by details)
                    | None => JNull
                    end)]) /\
  run2.1 = Return (JDict [("handled", JBool true);
                          ("status", JStr (stripe.dispute_status dispute'))]) /\
  cells (storage run2.2) !! ("dispute:" +:+ stripe.dispute_id dispute)
    = Some (JDict [("status", JStr (stripe.dispute_status dispute'));
                   ("closed_at", JStr (isoformat clock))]).
Proof.
  intros Htc Hoc Htx Hox Hid Hacc Hmail env1 run2. subst env1 run2.
  rewrite (dispute_handle_created _ _ _ _ Htc Hoc).
  rewrite (dispute_handle_closed _ _ _ _ Htx Hox).
  destruct (_handle_created_accepted self dispute)
    as (alert & _ & Hrun).
  destruct (Hrun env Hacc Hmail) as (_ & Hcells & Hrejects & Hnow & _).
  split.
  { rewrite Hcells, lookup_insert_eq. unfold dispute_record.
    by destruct (stripe.evidence_details dispute). }
  unfold _handle_closed, mbind, Eff_bind. rewrite Hid.
  cbn [now at_time].
  destruct (RouterFacts.storage_put_cases
              ("dispute:" +:+ stripe.dispute_id dispute)
              (JDict [("status", JStr (stripe.dispute_status dispute'));
                      ("closed_at", JStr (isoformat clock))])
              (at_time clock (_handle_created self dispute env).2))
    as [[Hrej _]|[_ (env2 & -> & Hcells2 & _)]].
  { cbn [storage at_time] in Hrej. congruence. }
  cbn [fst snd mret Eff_ret]. split; [done|].
  rewrite Hcells2. apply lookup_insert_eq.
Qed.


End Facts.
End DisputeFacts.

(** * The pre-built handlers under the retry loop *)
Module PrebuiltFacts.
Import Webhooks Reports Prebuilt.

Section Facts.
Context {World : Type} `{!Runtime World} `{!StripeLib}.
Context `{!Console World} `{!Text}.
Implicit Types (s : State World) (h : Handler World).

Lemma frame_data s s' r :
  frame s s' -> data (event_at s' r) = data (event_at s r).
Proof.
  intros Hf. pose proof (frame_envelope _ _ Hf r) as He.
  unfold envelope in He. by simplify_eq.
Qed.

Lemma slept_app (l1 l2 : list Z) (w : World) :
  slept (l1 ++ l2) w = slept l2 (slept l1 w).
Proof. apply foldl_app. Qed.

(** One call of a printing handler *)
Lemma try_handler_prints line h r a s :
  prints line h ->
  (r < length (objects (proc s)))%nat ->
  try_handler h r a s =
    (match line (data (event_at s r)) with
     | Return _ => Return ()
     | Raise e => Raise e
     end,
     {| proc := proc (assign r (set_attempts (a + 1)) s);
        world := match line (data (event_at s r)) with
                 | Return l => print l (world s)
                 | Raise _ => world s
                 end;
        trace := trace s ++ [Invoke (name h) (id (event_at s r)) (a + 1)] |}).
Proof.
  intros Hp Hr. unfold try_handler, invoke.
  rewrite ProcessorFacts.event_at_assign_eq by done.
  cbn [data id attempts set_attempts]. rewrite Hp.
  by destruct (line _).
Qed.

Lemma on_exception_world h r a e errors s :
  world (on_exception h r a e errors s).2
    = slept (if bool_decide (a < max_retries (proc s) - 1)
             then [retry_delay (proc s) * (a + 1)] else [])
            (world s).
Proof. unfold on_exception. simpl. by case_bool_decide. Qed.

(** While the line cannot be computed, every attempt raises the same
    exception and nothing is printed. *)
Lemma run_attempts_raises line h r e todo errors s :
  prints line h ->
  (r < length (objects (proc s)))%nat ->
  line (data (event_at s r)) = Raise e ->
  (run_attempts h r todo errors s).1
    = (false, errors ++ replicate (length todo) (name h +:+ ": " +:+ str e)) /\
  world (run_attempts h r todo errors s).2
    = slept ((fun a => retry_delay (proc s) * (a + 1))
               <$> filter (fun a => a < max_retries (proc s) - 1) todo)
            (world s) /\
  last_error (event_at (run_attempts h r todo errors s).2 r)
    = match todo with
      | [] => last_error (event_at s r)
      | _ => Some (str e)
      end.
Proof.
  intros Hp. revert errors s.
  induction todo as [|a todo IH]; intros errors s Hr Hline.
  { simpl. by rewrite app_nil_r. }
  pose proof (try_handler_prints line h r a s Hp Hr) as Htry.
  rewrite Hline in Htry.
  pose proof (ProcessorFacts.try_handler_frame h r a s) as Hf1.
  pose proof (ProcessorFacts.on_exception_frame h r a e errors
                (try_handler h r a s).2) as Hf2.
  assert ((r < length (objects (proc (try_handler h r a s).2)))%nat) as Hr1
    by by rewrite (frame_length _ _ Hf1).
  rewrite ProcessorFacts.run_attempts_cons.
  replace (try_handler h r a s).1 with (Raise (A := unit) e)
    by by rewrite Htry.
  destruct (IH (on_exception h r a e errors (try_handler h r a s).2).1
               (on_exception h r a e errors (try_handler h r a s).2).2)
    as (Hres & Hworld & Hlast).
  { by rewrite (frame_length _ _ Hf2). }
  { by rewrite (frame_data _ _ _ Hf2), (frame_data _ _ _ Hf1). }
  rewrite Hres, Hworld, Hlast. clear IH Hres Hworld Hlast.
  rewrite ProcessorFacts.on_exception_errors, on_exception_world.
  rewrite (frame_max_retries _ _ Hf2), (frame_retry_delay _ _ Hf2).
  rewrite (frame_max_retries _ _ Hf1), (frame_retry_delay _ _ Hf1).
  replace (world (try_handler h r a s).2) with (world s) by by rewrite Htry.
  split_and!.
  - by rewrite <-app_assoc.
  - rewrite filter_cons. case_bool_decide; by case_decide.
  - rewrite LedgerFacts.on_exception_last_error by done. by destruct todo.
Qed.

Lemma _process_event_prints_raise line h r e s :
  handlers (proc s) !! type (event_at s r) = Some [h] ->
  prints line h ->
  (r < length (objects (proc s)))%nat ->
  line (data (event_at s r)) = Raise e ->
  1 <= max_retries (proc s) ->
  (_process_event r s).1
    = PartialFailure (id (event_at s r))
        (replicate (Z.to_nat (max_retries (proc s)))
           (name h +:+ ": " +:+ str e)) /\
  world (_process_event r s).2
    = slept ((fun a => retry_delay (proc s) * (a + 1))
               <$> range (max_retries (proc s) - 1))
            (world s) /\
  failed_events (proc (_process_event r s).2) = failed_events (proc s) ++ [r] /\
  last_error (event_at (_process_event r s).2 r) = Some (str e).
Proof.
  intros Hhs Hp Hr Hline Hmr.
  rewrite (ProcessorFacts._process_event_single r s h Hhs).
  rewrite ProcessorFacts.run_handler_unfold. cbn zeta. cbn [fst snd].
  destruct (run_attempts_raises line h r e (range (max_retries (proc s))) [] s
              Hp Hr Hline) as (Hres & Hworld & Hlast).
  pose proof (ProcessorFacts.run_attempts_frame h r
                (range (max_retries (proc s))) [] s) as [Hf Hfailed].
  rewrite Hres. cbn [fst snd app].
  rewrite ProcessorFacts.event_at_log_append,
    ProcessorFacts.event_at_assign_eq
    by (cbn [failed_append with_proc proc objects];
        by rewrite (frame_length _ _ Hf)).
  cbn [log_append assign failed_append with_proc proc world failed_events
       set_processed_at last_error].
  rewrite Hworld, Hfailed, LedgerFacts.filter_range_but_last.
  unfold event_at in Hlast |- *.
  cbn [failed_append with_proc proc objects]. rewrite Hlast.
  unfold range. rewrite length_fmap, length_seq.
  destruct (Z.to_nat (max_retries (proc s))) as [|n] eqn:Hn; [lia|].
  done.
Qed.

Lemma _process_event_prints_return line h r l s :
  handlers (proc s) !! type (event_at s r) = Some [h] ->
  prints line h ->
  (r < length (objects (proc s)))%nat ->
  line (data (event_at s r)) = Return l ->
  1 <= max_retries (proc s) ->
  (_process_event r s).1 = Processed (id (event_at s r)) /\
  world (_process_event r s).2 = print l (world s) /\
  trace (_process_event r s).2
    = trace s ++ [Invoke (name h) (id (event_at s r)) 1] /\
  failed_events (proc (_process_event r s).2) = failed_events (proc s).
Proof.
  intros Hhs Hp Hr Hline Hmr.
  rewrite (ProcessorFacts._process_event_single r s h Hhs).
  rewrite ProcessorFacts.run_handler_unfold. cbn zeta. cbn [fst snd].
  destruct (ProcessorFacts.range_pos _ Hmr) as (rest & -> & _).
  rewrite ProcessorFacts.run_attempts_cons.
  rewrite (try_handler_prints line h r 0 s Hp Hr), Hline.
  cbn [fst snd]. done.
Qed.

(** *** The factory *)

(** X19.  What [create_webhook_processor] builds: a processor with the
    default retry settings (3 attempts, 60 seconds) and empty logs, in
    which each enabled group has registered its handlers, one per event
    type, and a disabled group none; the map of handlers holds 4, 4 and 3
    keys for the three groups.  Whatever the flags, eleven of the
    twenty-two event types (cancelled payment intents, succeeded and failed
    charges, finalized invoices, customers, checkout sessions, payouts)
    have no handler. *)
Theorem factory_registers_one_handler_per_type_of_each_enabled_group
    (secret : string) (payments subscriptions invoices : option bool)
    (w : World) :
  let s := create_webhook_processor secret payments subscriptions invoices w in
  (webhook_secret (proc s) = secret /\
   max_retries (proc s) = 3 /\
   retry_delay (proc s) = 60 /\
   event_log (proc s) = [] /\
   failed_events (proc s) = [] /\
   world s = w) /\
  handlers_registered (stats s)
    = ((if default true payments then 4 else 0)
       + (if default true subscriptions then 4 else 0)
       + (if default true invoices then 3 else 0))%nat /\
  (fun t => handlers (proc s) !! value t)
     <$> [PAYMENT_INTENT_SUCCEEDED; PAYMENT_INTENT_FAILED; CHARGE_REFUNDED;
          CHARGE_DISPUTED]
    = (if default true payments
       then [Some [on_payment_success]; Some [on_payment_failed];
             Some [on_refund]; Some [on_dispute]]
       else [None; None; None; None]) /\
  (fun t => handlers (proc s) !! value t)
     <$> [SUBSCRIPTION_CREATED; SUBSCRIPTION_UPDATED; SUBSCRIPTION_DELETED;
          SUBSCRIPTION_TRIAL_ENDING]
    = (if default true subscriptions
       then [Some [on_sub_created]; Some [on_sub_updated];
             Some [on_sub_deleted]; Some [on_trial_ending]]
       else [None; None; None; None]) /\
  (fun t => handlers (proc s) !! value t)
     <$> [INVOICE_PAID; INVOICE_PAYMENT_FAILED; INVOICE_UPCOMING]
    = (if default true invoices
       then [Some [on_invoice_paid]; Some [on_invoice_failed];
             Some [on_invoice_upcoming]]
       else [None; None; None]) /\
  Forall (fun t => handlers (proc s) !! value t = None)
    [PAYMENT_INTENT_CANCELED; CHARGE_SUCCEEDED; CHARGE_FAILED;
     INVOICE_FINALIZED; CUSTOMER_CREATED; CUSTOMER_UPDATED; CUSTOMER_DELETED;
     CHECKOUT_COMPLETED; CHECKOUT_EXPIRED; PAYOUT_PAID; PAYOUT_FAILED].
Proof.
  cbv zeta. unfold create_webhook_processor.
  destruct (default true payments), (default true subscriptions),
    (default true invoices);
    (split; [done|]); (split; [vm_compute; reflexivity|]);
    (split; [vm_compute; reflexivity|]);
    (split; [vm_compute; reflexivity|]);
    (split; [vm_compute; reflexivity|]);
    repeat constructor; vm_compute; reflexivity.
Qed.

(** *** A printing handler under [process] *)

(** X20.  A handler that only prints a line computed from the event's data
    (as each pre-built handler does) is, when it is the one handler of a new
    event's type and at least one attempt is allowed, either called once,
    printing the line, with the answer [processed]; or, when the line cannot
    be computed from the data, called [max_retries] times with the same
    exception each time: nothing is printed, the answer is
    [partial_failure] with [max_retries] copies of the error text, the
    event is dead-lettered once, and its [last_error] is the exception's
    text. *)
Theorem printing_handler_prints_once_or_is_dead_lettered
    request s event h line :
  wf s ->
  delivers request s event ->
  in_log (id event) s = false ->
  handlers (proc s) !! type event = Some [h] ->
  prints line h ->
  1 <= max_retries (proc s) ->
  (forall l, line (data event) = Return l ->
     (process request s).1 = Return (Processed (id event)) /\
     world (process request s).2 = print l (world s) /\
     trace (process request s).2
       = trace s ++ [Invoke (name h) (id event) 1] /\
     failed_events (proc (process request s).2) = failed_events (proc s)) /\
  (forall e, line (data event) = Raise e ->
     (process request s).1
       = Return (PartialFailure (id event)
                   (replicate (Z.to_nat (max_retries (proc s)))
                      (name h +:+ ": " +:+ str e))) /\
     world (process request s).2
       = slept ((fun a => retry_delay (proc s) * (a + 1))
                  <$> range (max_retries (proc s) - 1))
               (world s) /\
     dead_letter_entries (id event) (process request s).2 = 1%nat /\
     exists ev,
       get_event (id event) (process request s).2 = Some ev /\
       last_error ev = Some (str e)).
Proof.
  intros Hwf Hd Hfresh Hhs Hp Hmr.
  pose proof (LedgerFacts.get_event_entered _ _ _ Hwf Hd Hfresh) as Hget.
  destruct Hwf as [Hlog Hsub].
  rewrite (ProcessorFacts.process_delivers _ _ _ Hd), Hfresh in Hget |- *.
  cbn [fst snd] in Hget |- *.
  change (length (objects (proc s))) with (alloc event s).1 in Hget.
  assert (handlers (proc (alloc event s).2)
            !! type (event_at (alloc event s).2 (alloc event s).1) = Some [h])
    as Hhs' by (by rewrite ProcessorFacts.event_at_alloc_new).
  pose proof (ProcessorFacts.alloc_fresh event s) as Hr.
  split.
  - intros l Hline.
    destruct (_process_event_prints_return line h (alloc event s).1 l
                (alloc event s).2 Hhs' Hp Hr)
      as (Hres & Hworld & Htrace & Hfailed); [|done|].
    { by rewrite ProcessorFacts.event_at_alloc_new. }
    rewrite ProcessorFacts.event_at_alloc_new in Hres, Htrace.
    by rewrite Hres, Hworld, Htrace, Hfailed.
  - intros e Hline.
    destruct (_process_event_prints_raise line h (alloc event s).1 e
                (alloc event s).2 Hhs' Hp Hr)
      as (Hres & Hworld & Hfailed & Hlast); [|done|].
    { by rewrite ProcessorFacts.event_at_alloc_new. }
    rewrite ProcessorFacts.event_at_alloc_new in Hres.
    rewrite Hres, Hworld. split_and!; [done|done| |by eexists].
    unfold dead_letter_entries. rewrite Hfailed.
    change (failed_events (proc (alloc event s).2))
      with (failed_events (proc s)).
    rewrite ProcessorFacts.filter_fresh_entry; [done| |].
    + apply Forall_forall. intros r' Hr'%Hsub.
      rewrite ProcessorFacts._process_event_id,
        ProcessorFacts.event_at_alloc_old.
      * by apply ProcessorFacts.in_log_false.
      * by eapply Forall_forall in Hlog.
    + by rewrite ProcessorFacts._process_event_id,
        ProcessorFacts.event_at_alloc_new.
Qed.

(** *** The pre-built handlers and the payloads they need *)

Lemma append_empty_r (text : string) : text +:+ "" = text.
Proof.
  induction text as [|a text IH]; [done|].
  change (String a (text +:+ "") = String a text). by rewrite IH.
Qed.

(** X21.  Each of the eleven pre-built handlers reads [data['id']] before it
    prints: on a payload without that key it raises [KeyError('id')] and
    writes nothing.  For the six that print the id alone the key is also
    all they need: on any payload that has it they print one line and
    return. *)
Theorem prebuilt_handlers_need_the_object_id h event fields (w : World) :
  h ∈ prebuilt_handlers ->
  (assoc "id" fields = None ->
   call h event (JDict fields) w = (Raise (KeyError "id"), w)) /\
  (h ∈ [on_payment_failed; on_dispute; on_sub_deleted; on_trial_ending;
        on_invoice_failed; on_invoice_upcoming] ->
   forall x, assoc "id" fields = Some x ->
   exists label,
     call h event (JDict fields) w
       = (Return (), print (label +:+ py_str x) w)).
Proof.
  intros Hh. split.
  - intros Hid. unfold prebuilt_handlers in Hh.
    repeat (apply elem_of_cons in Hh as [->|Hh]);
      [..|by apply elem_of_nil in Hh];
      cbn [call on_payment_success on_payment_failed on_refund on_dispute
           on_sub_created on_sub_updated on_sub_deleted on_trial_ending
           on_invoice_paid on_invoice_failed on_invoice_upcoming];
      unfold print_f; cbn [fstring mbind Outcome_bind];
      unfold item, subscript; by rewrite Hid.
  - clear Hh. intros Hh x Hid.
    repeat (apply elem_of_cons in Hh as [->|Hh]);
      [..|by apply elem_of_nil in Hh];
      cbn [call on_payment_failed on_dispute on_sub_deleted on_trial_ending
           on_invoice_failed on_invoice_upcoming];
      unfold print_f; cbn [fstring mbind Outcome_bind];
      unfold item, subscript; rewrite Hid; cbn [mbind Outcome_bind];
      eexists; by rewrite append_empty_r.
Qed.


End Facts.
End PrebuiltFacts.

(** * Registration of handlers on the processor *)
Module RegistrationFacts.
Import Webhooks Reports.

Section Facts.
Context {World : Type}.
Implicit Types (s : State World) (func : Handler World).

(** No two members of [WebhookEventType] share a value: the enumeration has
    no aliases. *)
Lemma value_inj (t1 t2 : WebhookEventType) : value t1 = value t2 -> t1 = t2.
Proof.
  intros Heq.
  destruct t1, t2; first [reflexivity | cbn in Heq; discriminate Heq].
Qed.

(** X23.  [on] appends the function to the handlers of its event type and
    touches nothing else: the handlers of every other member of
    [WebhookEventType] are as before, and so are the event log, the
    dead-letter list, the events, the retry settings, the world and the
    calls made; [handlers_registered] grows by one exactly when the type
    had no entry yet. *)
Theorem on_appends_to_its_event_type_only event_type func s :
  handlers (proc (on event_type func s)) !! value event_type
    = Some (default [] (handlers (proc s) !! value event_type) ++ [func]) /\
  (forall other,
     other ≠ event_type ->
     handlers (proc (on event_type func s)) !! value other
       = handlers (proc s) !! value other) /\
  handlers_registered (stats (on event_type func s))
    = (handlers_registered (stats s)
       + match handlers (proc s) !! value event_type with
         | Some _ => 0
         | None => 1
         end)%nat /\
  (event_log (proc (on event_type func s)),
   failed_events (proc (on event_type func s)),
   objects (proc (on event_type func s)),
   max_retries (proc (on event_type func s)),
   retry_delay (proc (on event_type func s)),
   webhook_secret (proc (on event_type func s)),
   world (on event_type func s),
   trace (on event_type func s))
    = (event_log (proc s), failed_events (proc s), objects (proc s),
       max_retries (proc s), retry_delay (proc s), webhook_secret (proc s),
       world s, trace s).
Proof.
  split_and!.
  - apply lookup_insert_eq.
  - intros other Hne. apply lookup_insert_ne.
    intros Heq. by apply Hne, value_inj.
  - unfold stats, on. cbn [handlers_registered with_proc proc handlers].
    destruct (handlers (proc s) !! value event_type) as [hs|] eqn:Hhs.
    + rewrite map_size_insert_Some by (by rewrite Hhs). lia.
    + rewrite map_size_insert_None by done. lia.
  - done.
Qed.

End Facts.
End RegistrationFacts.

(** * Manual retry *)
Module RetryFacts.
Import Webhooks Reports.

Section Facts.
Context {World : Type} `{!Runtime World} `{!StripeLib}.
Implicit Types (s : State World) (h : Handler World).



End Facts.
End RetryFacts.

(** * Scenarios

    The further properties exercised on the test doubles. *)
Module Scenarios.

Module Processor.
Import Fixtures.

#[local] Existing Instance World_runtime.
#[local] Existing Instance Marks.World_runtime.
#[local] Existing Instance stub_stripe.

Lemma delivered_wf (hs : list (Webhooks.Handler World)) max_retries_ :
  Webhooks.wf (deliver (registered hs max_retries_)).2.
Proof.
  apply (ProcessorFacts.wf_process (request "evt_1" "whsec")
           (registered hs max_retries_)).
  apply Examples.registered_wf.
Qed.

(** X1 after one handler was registered and one event delivered *)
Lemma ledger_invariant_witness :
  Webhooks.reachable (deliver (registered [broken "notify"] None)).2 /\
  Webhooks.failed_events
    (Webhooks.proc (deliver (registered [broken "notify"] None)).2)
    ⊆ Webhooks.event_log
        (Webhooks.proc (deliver (registered [broken "notify"] None)).2) /\
  Reports.unique_ids (deliver (registered [broken "notify"] None)).2.
Proof.
  assert (Webhooks.reachable (deliver (registered [broken "notify"] None)).2)
    as Hreach.
  { apply (Webhooks.reachable_process (request "evt_1" "whsec")
             (registered [broken "notify"] None)).
    apply (Webhooks.reachable_on Webhooks.CHARGE_DISPUTED (broken "notify")
             (start None)).
    apply Webhooks.reachable_init. }
  destruct (LedgerFacts.ledger_invariant _ Hreach) as (_ & Hsub & Hunique).
  split_and!; [exact Hreach|exact Hsub|exact Hunique].
Defined.

(** X2 on the redelivery of a logged event *)
Lemma get_event_agrees_with_duplicate_check_witness :
  Webhooks.delivers (request "evt_1" "whsec")
    (deliver (registered [fine "notify"] None)).2 evt_1 /\
  ((deliver (deliver (registered [fine "notify"] None)).2).1
     = Return (Webhooks.Duplicate "evt_1") <->
   is_Some (Webhooks.get_event "evt_1"
              (deliver (registered [fine "notify"] None)).2)).
Proof.
  assert (Webhooks.delivers (request "evt_1" "whsec")
            (deliver (registered [fine "notify"] None)).2 evt_1) as Hd.
  { apply Examples.evt_1_delivers.
    apply (ProcessorFacts.process_secret (request "evt_1" "whsec")
             (registered [fine "notify"] None)). }
  destruct (LedgerFacts.get_event_agrees_with_duplicate_check
              (request "evt_1" "whsec")
              (deliver (registered [fine "notify"] None)).2 evt_1 Hd)
    as (_ & _ & Hiff).
  split; [exact Hd|exact Hiff].
Defined.

(** X3 on the first delivery to a processor with one handler *)
Lemma get_event_after_process_witness :
  Webhooks.wf (registered [fine "notify"] None) /\
  exists ev,
    Webhooks.get_event "evt_1" (deliver (registered [fine "notify"] None)).2
      = Some ev /\
    Webhooks.envelope ev = Webhooks.envelope evt_1.
Proof.
  destruct (LedgerFacts.get_event_after_process (request "evt_1" "whsec")
              (registered [fine "notify"] None) evt_1)
    as (ev & Hget & Henv & _).
  - apply Examples.registered_wf.
  - by apply Examples.evt_1_delivers.
  - reflexivity.
  - split; [apply Examples.registered_wf|]. exists ev.
    split; [exact Hget|exact Henv].
Defined.

(** X4 on a processor without handlers *)
Lemma event_without_handlers_is_only_logged_witness :
  (deliver (start None)).1
    = Return (Webhooks.Ignored "charge.dispute.created") /\
  Webhooks.objects (Webhooks.proc (deliver (start None)).2) = [evt_1] /\
  Webhooks.trace (deliver (start None)).2 = [].
Proof.
  destruct (LedgerFacts.event_without_handlers_is_only_logged
              (request "evt_1" "whsec") (start None) evt_1)
    as (Hres & _ & _ & Hobjects & _ & _ & Htrace & _).
  - by apply Examples.evt_1_delivers.
  - reflexivity.
  - reflexivity.
  - split_and!; [exact Hres|exact Hobjects|exact Htrace].
Defined.


(** X6 on a processor constructed with [max_retries=0] *)
Lemma no_attempts_when_max_retries_is_not_positive_witness :
  Webhooks.max_retries
    (Webhooks.proc (registered [broken "notify"] (Some 0))) <= 0 /\
  (deliver (registered [broken "notify"] (Some 0))).1
    = Return (Webhooks.Processed "evt_1") /\
  Webhooks.trace (deliver (registered [broken "notify"] (Some 0))).2 = [] /\
  Webhooks.failed_events
    (Webhooks.proc (deliver (registered [broken "notify"] (Some 0))).2)
    = [0%nat].
Proof.
  destruct (LedgerFacts.no_attempts_when_max_retries_is_not_positive
              (request "evt_1" "whsec") (registered [broken "notify"] (Some 0))
              evt_1 [broken "notify"])
    as (Hres & Htrace & _ & Hfailed).
  - by apply Examples.evt_1_delivers.
  - reflexivity.
  - reflexivity.
  - done.
  - by vm_compute.
  - split_and!; [by vm_compute|exact Hres|exact Htrace|exact Hfailed].
Defined.


(** X9 on the first delivery to a processor with one handler, and on the
    redelivery *)
Lemma process_counts_each_new_event_once_witness :
  Webhooks.wf (registered [fine "notify"] None) /\
  Reports.total_processed
    (Reports.stats (deliver (registered [fine "notify"] None)).2) = 1%nat /\
  Reports.type_count
    (Reports.stats (deliver (registered [fine "notify"] None)).2)
    "charge.dispute.created" = 1%nat /\
  Reports.type_count
    (Reports.stats (deliver (registered [fine "notify"] None)).2)
    "invoice.paid" = 0%nat /\
  Reports.stats (deliver (deliver (registered [fine "notify"] None)).2).2
    = Reports.stats (deliver (registered [fine "notify"] None)).2.
Proof.
  destruct (LedgerFacts.process_counts_each_new_event_once
              (request "evt_1" "whsec") (registered [fine "notify"] None)
              evt_1 (Examples.registered_wf [fine "notify"] None))
    as [Hnew _]; [by apply Examples.evt_1_delivers|].
  destruct Hnew as (Htotal & _ & Htypes); [reflexivity|].
  destruct (LedgerFacts.process_counts_each_new_event_once
              (request "evt_1" "whsec")
              (deliver (registered [fine "notify"] None)).2 evt_1
              (delivered_wf [fine "notify"] None))
    as [_ Hdup].
  { apply Examples.evt_1_delivers.
    apply (ProcessorFacts.process_secret (request "evt_1" "whsec")
             (registered [fine "notify"] None)). }
  destruct Hdup as [_ Hstats]; [reflexivity|].
  split_and!; [apply Examples.registered_wf|exact Htotal
               |exact (Htypes "charge.dispute.created")
               |exact (Htypes "invoice.paid")|exact Hstats].
Defined.

(** X10 on the retry of a dead-lettered event *)
Lemma manual_retry_logs_the_event_again_witness :
  Webhooks.wf (deliver (registered [broken "notify"] None)).2 /\
  Webhooks.event_log
    (Webhooks.proc
       (Webhooks.retry_failed "evt_1"
          (deliver (registered [broken "notify"] None)).2).2)
    = [0%nat; 0%nat] /\
  length
    (Webhooks.objects
       (Webhooks.proc
          (Webhooks.retry_failed "evt_1"
             (deliver (registered [broken "notify"] None)).2).2))
    = 1%nat.
Proof.
  destruct (LedgerFacts.manual_retry_logs_the_event_again "evt_1"
              (deliver (registered [broken "notify"] None)).2 0%nat 0%nat)
    as (_ & Hlog & Hobjects & _).
  - apply delivered_wf.
  - by vm_compute.
  - split_and!; [apply delivered_wf|exact Hlog|exact Hobjects].
Defined.

(** X11 with a handler that fails while what it depends on is not up and
    succeeds on its second attempt of three *)
Lemma successful_retry_keeps_last_error_witness :
  Webhooks.succeeds_at 2 (Marks.waiting "notify" 60) evt_1
    (Marks.registered [Marks.waiting "notify" 60] None) /\
  exists ev,
    Webhooks.get_event "evt_1"
      (Marks.deliver (Marks.registered [Marks.waiting "notify" 60] None)).2
      = Some ev /\
    Webhooks.attempts ev = 2 /\
    Webhooks.last_error ev = Some "not ready".
Proof.
  destruct (LedgerFacts.successful_retry_keeps_last_error
              (request "evt_1" "whsec")
              (Marks.registered [Marks.waiting "notify" 60] None) evt_1
              (Marks.waiting "notify" 60) 2)
    as (ev & Hget & Hattempts & _ & _).
  - apply Examples.marked_registered_wf.
  - by apply Examples.marked_evt_1_delivers.
  - reflexivity.
  - reflexivity.
  - apply Examples.waiting_succeeds_at.
  - by vm_compute.
  - split; [apply Examples.waiting_succeeds_at|]. exists ev.
    split_and!; [exact Hget|exact Hattempts|].
    vm_compute in Hget. by injection Hget as <-.
Defined.



End Processor.

Module Router.
Import Fixtures.

#[local] Existing Instance stub_stripe.
#[local] Existing Instance stub_formatting.

(** X12 on a router without handlers *)
Lemma unhandled_event_leaves_no_ledger_entry_witness :
  route (router []) env0
    = (Return (Events.Unhandled "charge.dispute.created"), env0) /\
  route (router []) (route (router []) env0).2
    = (Return (Events.Unhandled "charge.dispute.created"), env0).
Proof.
  destruct (RoutingFacts.unhandled_event_leaves_no_ledger_entry (router [])
              "evt_1" "whsec" "evt_1" "whsec" evt_1_dispute evt_1_dispute
              env0) as (Hfirst & _ & Hsecond).
  - reflexivity.
  - reflexivity.
  - reflexivity.
  - reflexivity.
  - reflexivity.
  - reflexivity.
  - split; [exact Hfirst|exact Hsecond].
Defined.

(** X13 on a redelivery, where the ledger holds the processed entry, and
    on a storage that holds an empty dict under the key: this entry is
    present but falsy, and the event is handled. *)
Lemma already_processed_iff_truthy_ledger_entry_witness :
  (exists v,
     Events.cells (Events.storage (route (router [disputes]) env0).2)
       !! "event:evt_1" = Some v /\
     truthy v = true) /\
  (route (router [disputes]) (route (router [disputes]) env0).2).1
    = Return (Events.AlreadyProcessed "evt_1") /\
  (route (router [disputes])
     {| Events.storage :=
          {| Events.cells := {[ "event:evt_1" := JDict [] ]};
             Events.rejects := fun _ => false |};
        Events.email_sender :=
          {| Events.outbox := []; Events.down := false |};
        Events.now := 1700000000;
        Events.journal := [] |}).1
    ≠ Return (Events.AlreadyProcessed "evt_1").
Proof.
  assert (exists v,
            Events.cells (Events.storage (route (router [disputes]) env0).2)
              !! "event:evt_1" = Some v /\
            truthy v = true) as Hentry.
  { eexists. split; [by vm_compute|reflexivity]. }
  destruct (RoutingFacts.already_processed_iff_truthy_ledger_entry
              (router [disputes]) "evt_1" "whsec" evt_1_dispute
              (route (router [disputes]) env0).2) as [Hiff _];
    [reflexivity|].
  destruct (RoutingFacts.already_processed_iff_truthy_ledger_entry
              (router [disputes]) "evt_1" "whsec" evt_1_dispute
              {| Events.storage :=
                   {| Events.cells := {[ "event:evt_1" := JDict [] ]};
                      Events.rejects := fun _ => false |};
                 Events.email_sender :=
                   {| Events.outbox := []; Events.down := false |};
                 Events.now := 1700000000;
                 Events.journal := [] |}) as [Hiff' _];
    [reflexivity|].
  split_and!; [exact Hentry|by apply Hiff|].
  intros (v & Hv & Ht)%Hiff'.
  assert (v = JDict []) as -> by (vm_compute in Hv; by injection Hv).
  discriminate Ht.
Defined.

(** X14 with a handler that raises *)
Lemma handler_failure_is_recorded_and_reraised_witness :
  (route (router [failing]) env0).1 = Raise (Exception "boom") /\
  Events.cells (Events.storage (route (router [failing]) env0).2)
    !! "event:evt_1" = None /\
  is_Some
    (Events.cells (Events.storage (route (router [failing]) env0).2)
       !! "failed:evt_1").
Proof.
  destruct (RoutingFacts.handler_failure_is_recorded_and_reraised
              (router [failing]) "evt_1" "whsec" evt_1_dispute failing env0
              (Exception "boom")
              (Events.record_effect (Events.Handle "evt_1") env0))
    as [Haccepted _].
  - reflexivity.
  - reflexivity.
  - reflexivity.
  - reflexivity.
  - destruct Haccepted as (Hres & Hcells & Hevent); [reflexivity|].
    split_and!; [exact Hres|exact Hevent|].
    unfold route. rewrite Hcells. rewrite lookup_insert_eq. by eexists.
Defined.

(** X15 with a storage that refuses the ledger entry of [evt_1] *)
Lemma ledger_write_failure_is_raised_after_the_handler_ran_witness :
  exists e,
    (route (router [noting "seen"])
       {| Events.storage :=
            {| Events.cells := ∅;
               Events.rejects := fun key => String.eqb key "event:evt_1" |};
          Events.email_sender :=
            {| Events.outbox := []; Events.down := false |};
          Events.now := 1700000000;
          Events.journal := [] |}).1 = Raise e.
Proof.
  destruct (RoutingFacts.ledger_write_failure_is_raised_after_the_handler_ran
              (router [noting "seen"]) "evt_1" "whsec" evt_1_dispute
              (noting "seen")
              {| Events.storage :=
                   {| Events.cells := ∅;
                      Events.rejects :=
                        fun key => String.eqb key "event:evt_1" |};
                 Events.email_sender :=
                   {| Events.outbox := []; Events.down := false |};
                 Events.now := 1700000000;
                 Events.journal := [] |}
              (JDict [("handled", JBool true)])
              (Events.handle (noting "seen") evt_1_dispute
                 (Events.record_effect (Events.Handle "evt_1")
                    {| Events.storage :=
                         {| Events.cells := ∅;
                            Events.rejects :=
                              fun key => String.eqb key "event:evt_1" |};
                       Events.email_sender :=
                         {| Events.outbox := []; Events.down := false |};
                       Events.now := 1700000000;
                       Events.journal := [] |})).2)
    as (e & Hres & _).
  - reflexivity.
  - reflexivity.
  - reflexivity.
  - reflexivity.
  - reflexivity.
  - reflexivity.
  - exists e. exact Hres.
Defined.

(** X17 on a dispute that is created and, a day later, lost *)
Lemma closing_a_dispute_replaces_its_record_witness :
  Events.cells
    (Events.storage (Events.handle disputes evt_1_dispute env0).2)
    !! "dispute:dp_1"
    = Some (JDict [("charge_id", JStr "ch_1"); ("amount", JInt 5000);
                   ("reason", JStr "fraudulent");
                   ("status", JStr "needs_response");
                   ("created_at", JStr "1700000000");
                   ("evidence_due_by", JNull)]) /\
  Events.cells
    (Events.storage
       (Events.handle disputes
          {| stripe.id := "evt_2"; stripe.type := "charge.dispute.closed";
             stripe.object :=
               stripe.DisputeObject
                 {| stripe.dispute_id := "dp_1"; stripe.charge := "ch_1";
                    stripe.amount := 5000; stripe.reason := "fraudulent";
                    stripe.dispute_status := "lost";
                    stripe.evidence_details := None |};
             stripe.previous_attributes := None |}
          (Events.at_time 1700086400
             (Events.handle disputes evt_1_dispute env0).2)).2)
    !! "dispute:dp_1"
    = Some (JDict [("status", JStr "lost");
                   ("closed_at", JStr "1700086400")]).
Proof.
  destruct (DisputeFacts.closing_a_dispute_replaces_its_record
              {| Events.notifications := true |} evt_1_dispute
              {| stripe.id := "evt_2"; stripe.type := "charge.dispute.closed";
                 stripe.object :=
                   stripe.DisputeObject
                     {| stripe.dispute_id := "dp_1"; stripe.charge := "ch_1";
                        stripe.amount := 5000; stripe.reason := "fraudulent";
                        stripe.dispute_status := "lost";
                        stripe.evidence_details := None |};
                 stripe.previous_attributes := None |}
              dispute_1
              {| stripe.dispute_id := "dp_1"; stripe.charge := "ch_1";
                 stripe.amount := 5000; stripe.reason := "fraudulent";
                 stripe.dispute_status := "lost";
                 stripe.evidence_details := None |}
              env0 1700086400) as (Hcreated & _ & Hclosed).
  - reflexivity.
  - reflexivity.
  - reflexivity.
  - reflexivity.
  - reflexivity.
  - reflexivity.
  - by right.
  - split; [exact Hcreated|exact Hclosed].
Defined.


End Router.

Module Factory.
Import Webhooks Prebuilt Shop.

#[local] Existing Instance World_runtime.
#[local] Existing Instance World_console.
#[local] Existing Instance plain_text.
#[local] Existing Instance stub_stripe.

Lemma start_wf : wf start.
Proof. split; [constructor|]. by intros r Hr. Qed.

Lemma evt_delivers payment_id :
  payment_id ≠ "" -> delivers (request payment_id) start (evt payment_id).
Proof.
  intros Hne%String.eqb_neq. split.
  - unfold verify_signature. simpl. by rewrite Hne.
  - simpl. rewrite Hne. eexists. split; reflexivity.
Qed.

(** X20 on a payment intent without an amount *)
Lemma printing_handler_prints_once_or_is_dead_lettered_witness :
  wf start /\
  (process (request "pi_open") start).1
    = Return (PartialFailure "evt_pi_open"
                (replicate 3 "on_payment_success: 'amount'")) /\
  world (process (request "pi_open") start).2
    = {| clock := 180; stdout := [] |} /\
  dead_letter_entries "evt_pi_open" (process (request "pi_open") start).2
    = 1%nat.
Proof.
  destruct (PrebuiltFacts.printing_handler_prints_once_or_is_dead_lettered
              (request "pi_open") start (evt "pi_open") on_payment_success
              (fun data =>
                 fstring [Return "ðŸ’° Payment succeeded: "; item data "id";
                          Return " - $"; dollars data "amount"]))
    as [_ Hraise].
  - apply start_wf.
  - by apply evt_delivers.
  - reflexivity.
  - by vm_compute.
  - done.
  - by vm_compute.
  - destruct (Hraise (KeyError "amount")) as (Hres & Hworld & Hdead & _);
      [reflexivity|].
    split_and!; [apply start_wf|exact Hres|exact Hworld|exact Hdead].
Defined.

(** X21 on the dispute handler and an empty payload *)
Lemma prebuilt_handlers_need_the_object_id_witness :
  on_dispute ∈ prebuilt_handlers (World := World) /\
  call on_dispute (evt "pi_open") (JDict []) {| clock := 0; stdout := [] |}
    = (Raise (KeyError "id"), {| clock := 0; stdout := [] |}).
Proof.
  assert (on_dispute ∈ prebuilt_handlers (World := World)) as Hin.
  { unfold prebuilt_handlers. do 3 apply list_elem_of_further.
    apply list_elem_of_here. }
  destruct (PrebuiltFacts.prebuilt_handlers_need_the_object_id on_dispute
              (evt "pi_open") [] {| clock := 0; stdout := [] |} Hin)
    as [Hmissing _].
  split; [exact Hin|]. apply Hmissing. reflexivity.
Defined.


End Factory.

End Scenarios.
